(** * EthicaDL backend (app.py): job registry, progress hooks, output resolver

    A shallow embedding of [src/app.py].  Python values are modelled as
    follows.

    - [str] is a Rocq [string]; a non-ASCII character is held as its UTF-8
      bytes, so every test the source makes on ASCII characters reads the
      same.  [None] is [None] of an option type, and Python truthiness is
      written out ([truthy]).
    - the [jobs] dict is a [gmap string Job]; one job dict, whose keys are
      fixed by [api_download], is the record [Job].
    - an exception is [Raise msg], [msg] being [str(e)].
    - the file system is a snapshot [FS]: the entries of [DOWNLOAD_DIR] in
      the order [os.scandir] yields them, each with its modification time,
      and the predicate [Path.exists].
    - times are integers counting nanoseconds; byte counters are integers.
    - [progress] is held in hundredths of a percent, the source rounding
      it to two decimals.

    The standard-library functions the source calls ([urlparse],
    [parse_qs], [Path.glob], [Path.with_suffix], ...) are modelled after
    CPython 3.11. *)

From Stdlib Require Import ZArith List String Ascii Bool Lia.
From stdpp Require Import base option gmap strings.
Import ListNotations.
Open Scope string_scope.
Open Scope list_scope.
Open Scope Z_scope.

(** ** Python values *)

Inductive outcome (A : Type) : Type :=
| Ret (a : A)
| Raise (msg : string).
Arguments Ret {A} a.
Arguments Raise {A} msg.

#[global] Instance outcome_ret : MRet outcome := fun A a => Ret a.

#[global] Instance outcome_bind : MBind outcome := fun A B k m =>
  match m with
  | Ret a => k a
  | Raise msg => Raise msg
  end.

(** [bool(x)] for an optional string: [None] and [''] are falsy. *)
Definition truthy (o : option string) : bool :=
  match o with
  | Some s => negb (String.eqb s "")
  | None => false
  end.

(** [bool(x)] for an optional number: [None] and [0] are falsy. *)
Definition truthy_num (o : option Z) : bool :=
  match o with
  | Some n => negb (n =? 0)
  | None => false
  end.

(** [a or b] on optional strings. *)
Definition py_or (a b : option string) : option string :=
  if truthy a then a else b.

(** [a or ""] followed by a use as a string. *)
Definition str_or_empty (a : option string) : string :=
  match a with
  | Some s => s
  | None => ""
  end.

(** ** Strings *)

Definition code (c : ascii) : N := N_of_ascii c.

Definition is_ascii (c : ascii) : bool := (code c <? 128)%N.

Definition in_range (lo hi c : ascii) : bool :=
  ((code lo <=? code c) && (code c <=? code hi))%N.

Definition is_upper (c : ascii) : bool := in_range "A" "Z" c.
Definition is_alpha (c : ascii) : bool := in_range "A" "Z" c || in_range "a" "z" c.
Definition is_digit (c : ascii) : bool := in_range "0" "9" c.

(** [str.isspace] on the ASCII range. *)
Definition is_space (c : ascii) : bool :=
  in_range "009" "013" c || in_range "028" "032" c.

Definition lower_char (c : ascii) : ascii :=
  if is_upper c then ascii_of_N (code c + 32) else c.

(** [s.lower()]; characters outside ASCII are left as they are. *)
Fixpoint lower (s : string) : string :=
  match s with
  | "" => ""
  | String c s' => String (lower_char c) (lower s')
  end.

(** [c in s] for a single character. *)
Fixpoint contains (c : ascii) (s : string) : bool :=
  match s with
  | "" => false
  | String x s' => Ascii.eqb x c || contains c s'
  end.

(** [s.startswith(p)]. *)
Fixpoint startswith (p s : string) : bool :=
  match p, s with
  | "", _ => true
  | String a p', String b s' => Ascii.eqb a b && startswith p' s'
  | String _ _, "" => false
  end.

(** [needle in hay]. *)
Fixpoint infix (needle hay : string) : bool :=
  startswith needle hay ||
  match hay with
  | "" => false
  | String _ hay' => infix needle hay'
  end.

(** [s.lstrip(chars)], the set of characters given as a predicate. *)
Fixpoint lstrip (p : ascii -> bool) (s : string) : string :=
  match s with
  | "" => ""
  | String c s' => if p c then lstrip p s' else s
  end.

Fixpoint rstrip (p : ascii -> bool) (s : string) : string :=
  match s with
  | "" => ""
  | String c s' =>
      match rstrip p s' with
      | "" => if p c then "" else String c ""
      | r => String c r
      end
  end.

Definition strip (p : ascii -> bool) (s : string) : string := rstrip p (lstrip p s).

(** [s.replace(c, "")]. *)
Fixpoint remove_char (p : ascii -> bool) (s : string) : string :=
  match s with
  | "" => ""
  | String c s' => if p c then remove_char p s' else String c (remove_char p s')
  end.

(** [s.replace(a, b)] for single characters. *)
Fixpoint replace_char (a b : ascii) (s : string) : string :=
  match s with
  | "" => ""
  | String c s' => String (if Ascii.eqb c a then b else c) (replace_char a b s')
  end.

(** [s.split(sep)] for a one-character separator: never the empty list. *)
Fixpoint split (sep : ascii) (s : string) : list string :=
  match s with
  | "" => [""]
  | String c s' =>
      match split sep s' with
      | [] => [""]
      | h :: t => if Ascii.eqb c sep then "" :: h :: t else String c h :: t
      end
  end.

(** [s.partition(c)]: the text before and after the first [c], if any. *)
Fixpoint partition (c : ascii) (s : string) : option (string * string) :=
  match s with
  | "" => None
  | String x s' =>
      if Ascii.eqb x c then Some ("", s')
      else match partition c s' with
           | Some (a, b) => Some (String x a, b)
           | None => None
           end
  end.

Fixpoint all_chars (p : ascii -> bool) (s : string) : bool :=
  match s with
  | "" => true
  | String c s' => p c && all_chars p s'
  end.

Fixpoint join (sep : string) (l : list string) : string :=
  match l with
  | [] => ""
  | [x] => x
  | x :: l' => x +:+ sep +:+ join sep l'
  end.

(** ** Paths ([pathlib.PurePosixPath]) *)

(** A path is its root ([""], ["/"] or ["//"]) and its components. *)
Record Path : Type := mkPath { root : string; parts : list string }.

Definition is_slash (c : ascii) : bool := Ascii.eqb c "/".

(** [splitroot]: exactly two leading slashes are kept, any other number
    collapses to one. *)
Definition splitroot (part : string) : string * string :=
  match part with
  | String "/" _ =>
      let stripped := lstrip is_slash part in
      if (String.length part - String.length stripped =? 2)%nat
      then ("//", stripped) else ("/", stripped)
  | _ => ("", part)
  end.

Definition name_parts (rel : string) : list string :=
  List.filter (fun x => negb (String.eqb x "") && negb (String.eqb x ".")) (split "/" rel).

(** [Path(s)]. *)
Definition py_Path (s : string) : Path :=
  let '(r, rel) := splitroot s in mkPath r (name_parts rel).

(** [p / s]: a rooted right operand replaces the left one. *)
Definition joinpath (p : Path) (s : string) : Path :=
  let q := py_Path s in
  if String.eqb (root q) "" then mkPath (root p) (parts p ++ parts q) else q.

(** [str(p)]. *)
Definition str_path (p : Path) : string :=
  match root p, parts p with
  | "", [] => "."
  | r, ps => r +:+ join "/" ps
  end.

(** [p.name]. *)
Definition path_name (p : Path) : string := List.last (parts p) "".

(** [name.rfind('.')] as the text before and from the last dot. *)
Fixpoint rsplit_dot (s : string) : option (string * string) :=
  match s with
  | "" => None
  | String c s' =>
      match rsplit_dot s' with
      | Some (a, b) => Some (String c a, b)
      | None => if Ascii.eqb c "." then Some ("", s) else None
      end
  end.

(** [p.suffix]: from the last dot, unless that dot starts or ends the name. *)
Definition suffix (name : string) : string :=
  match rsplit_dot name with
  | Some (String _ _, String _ (String _ _ as ext) as suf) => suf
  | _ => ""
  end.

(** [repr] of a string, without the escapes [repr] adds for quotes,
    backslashes and unprintable characters. *)
Definition py_repr (s : string) : string := "'" +:+ s +:+ "'".

(** [p.with_suffix(suf)]. *)
Definition with_suffix (p : Path) (suf : string) : outcome Path :=
  if contains "/" suf then Raise ("Invalid suffix " +:+ py_repr suf)
  else if (negb (String.eqb suf "") && negb (startswith "." suf)) || String.eqb suf "."
  then Raise ("Invalid suffix " +:+ py_repr suf)
  else
    let name := path_name p in
    if String.eqb name ""
    then Raise ("PosixPath(" +:+ py_repr (str_path p) +:+ ") has an empty name")
    else
      let old := suffix name in
      let stem := substring 0 (String.length name - String.length old) name in
      Ret (mkPath (root p) (removelast (parts p) ++ [stem +:+ suf])).

(** ** Shell patterns ([fnmatch.translate]) *)

(** What one piece of the translated pattern accepts. *)
Inductive glob_item : Type :=
| GStar                                       (* [*] *)
| GAny                                        (* [?], and the class [[!]] emptied of its ranges *)
| GNever                                      (* a class emptied of its ranges *)
| GLit (c : ascii)
| GClass (neg : bool) (ranges : list (ascii * ascii)).

(** The characters before the first closing bracket, if there is one. *)
Fixpoint until_bracket (l : list ascii) : option (list ascii) :=
  match l with
  | [] => None
  | c :: l' =>
      if Ascii.eqb c "]" then Some []
      else option_map (cons c) (until_bracket l')
  end.

(** The text of a class, [pat[i:j]]: a leading [!] and a [[]] right after
    the opening (or after the [!]) do not close it. *)
Definition class_body (rest : list ascii) : option (list ascii) :=
  let '(bang, r1) :=
    match rest with
    | "!"%char :: r => (["!"%char], r)
    | _ => ([], rest)
    end in
  let '(brk, r2) :=
    match r1 with
    | "]"%char :: r => (["]"%char], r)
    | _ => ([], r1)
    end in
  option_map (fun s => bang ++ brk ++ s) (until_bracket r2).

(** The chunks of a class that holds a hyphen, the last one possibly empty:
    [cur] is the chunk being read (reversed), [guard] the number of
    characters that cannot be a range hyphen yet ([k] runs ahead of [i] in
    the source). *)
Fixpoint chunks_from (guard : nat) (cur : list ascii) (l : list ascii) : list (list ascii) :=
  match l with
  | [] => [rev cur]
  | c :: l' =>
      match guard with
      | S g => chunks_from g (c :: cur) l'
      | O =>
          if Ascii.eqb c "-" then rev cur :: chunks_from 2 [] l'
          else chunks_from 0 (c :: cur) l'
      end
  end.

(** [chunks[-1] += '-'] when the class ends in a range hyphen. *)
Definition close_chunks (chunks : list (list ascii)) : list (list ascii) :=
  match rev chunks with
  | [] :: prev :: before => rev ((prev ++ ["-"%char]) :: before)
  | _ => chunks
  end.

(** Removal of the ranges whose bounds are out of order, from the right. *)
Fixpoint drop_empty_ranges (chunks : list (list ascii)) : list (list ascii) :=
  match chunks with
  | [] => []
  | c :: rest =>
      match drop_empty_ranges rest with
      | [] => [c]
      | d :: rest' =>
          match rev c, d with
          | hi :: c_init, lo :: d_tail =>
              if (code lo <? code hi)%N
              then (rev c_init ++ d_tail) :: rest'
              else c :: d :: rest'
          | _, _ => c :: d :: rest'
          end
      end
  end.

Definition split_class (stuff : list ascii) : list (list ascii) :=
  if existsb (Ascii.eqb "-") stuff
  then
    let guard := match stuff with "!"%char :: _ => 2%nat | _ => 1%nat end in
    drop_empty_ranges (close_chunks (chunks_from guard [] stuff))
  else [stuff].

(** The text between the brackets of the regular expression: characters
    that stand for themselves, and the hyphens that join two chunks. *)
Inductive atom : Type :=
| ALit (c : ascii)
| AHyphen.

Definition atom_char (a : atom) : ascii :=
  match a with
  | ALit c => c
  | AHyphen => "-"
  end.

Fixpoint atoms_of (chunks : list (list ascii)) : list atom :=
  match chunks with
  | [] => []
  | [c] => map ALit c
  | c :: rest => map ALit c ++ AHyphen :: atoms_of rest
  end.

(** The members of a set as [re] reads them: [x-y] is a range, a hyphen
    that opens or closes the set stands for itself. *)
Fixpoint parse_set (l : list atom) : list (ascii * ascii) :=
  match l with
  | [] => []
  | this :: rest =>
      match rest with
      | [AHyphen] => [(atom_char this, atom_char this); ("-"%char, "-"%char)]
      | AHyphen :: that :: rest' => (atom_char this, atom_char that) :: parse_set rest'
      | _ => (atom_char this, atom_char this) :: parse_set rest
      end
  end.

Definition class_item (stuff : list ascii) : glob_item :=
  match atoms_of (split_class stuff) with
  | [] => GNever
  | [ALit "!"%char] => GAny
  | ALit "!"%char :: atoms => GClass true (parse_set atoms)
  | atoms => GClass false (parse_set atoms)
  end.

(** [translate]: [skip] characters are passed over, those of a class
    already read. *)
Fixpoint translate_from (skip : nat) (pat : list ascii) : list glob_item :=
  match pat with
  | [] => []
  | c :: rest =>
      match skip with
      | S k => translate_from k rest
      | O =>
          if Ascii.eqb c "*" then GStar :: translate_from 0 rest
          else if Ascii.eqb c "?" then GAny :: translate_from 0 rest
          else if Ascii.eqb c "[" then
            match class_body rest with
            | None => GLit "[" :: translate_from 0 rest
            | Some stuff => class_item stuff :: translate_from (S (length stuff)) rest
            end
          else GLit c :: translate_from 0 rest
      end
  end.

Definition translate (pat : string) : list glob_item :=
  translate_from 0 (list_ascii_of_string pat).

Definition item_accepts (it : glob_item) (c : ascii) : bool :=
  match it with
  | GStar => true
  | GAny => true
  | GNever => false
  | GLit x => Ascii.eqb x c
  | GClass neg ranges => xorb neg (existsb (fun r => in_range (fst r) (snd r) c) ranges)
  end.

(** [re.fullmatch] of the translated pattern. *)
Fixpoint match_items (items : list glob_item) (name : list ascii) : bool :=
  match items with
  | [] =>
      match name with
      | [] => true
      | _ => false
      end
  | GStar :: items' =>
      (fix star (n : list ascii) : bool :=
         match_items items' n ||
         match n with
         | [] => false
         | _ :: n' => star n'
         end) name
  | it :: items' =>
      match name with
      | [] => false
      | c :: name' => item_accepts it c && match_items items' name'
      end
  end.

Definition fnmatch (pat name : string) : bool :=
  match_items (translate pat) (list_ascii_of_string name).

(** ** The file system *)

Record Entry : Type := mkEntry { entry_name : string; st_mtime : Z }.

(** A snapshot: the entries of [DOWNLOAD_DIR] in the order [os.scandir]
    yields them, and [Path(s).exists()] for every path string [s]. *)
Record FS : Type := mkFS { listing : list Entry; on_disk : string -> bool }.

Definition exists_ (fs : FS) (p : Path) : bool := on_disk fs (str_path p).

Definition DOWNLOAD_DIR : Path := py_Path "downloads".

(** [parent._make_child_relpath(name)]. *)
Definition child (parent : Path) (name : string) : Path :=
  mkPath (root parent) (parts parent ++ [name]).

Definition seconds (n : Z) : Z := n * 1000000000.

(** [DOWNLOAD_DIR.glob(pattern)] for the patterns of this program, which
    start with a star.  The directory is flat, so a pattern of several
    components selects nothing; a component that holds two stars in a row
    without being just that is refused. *)
Definition glob (fs : FS) (pattern : string) : outcome (list Entry) :=
  let comps := name_parts pattern in
  if existsb (fun c => infix "**" c && negb (String.eqb c "**")) comps
  then Raise "Invalid pattern: '**' can only be an entire path component"
  else
    match comps with
    | [pat] => Ret (List.filter (fun e => fnmatch pat (entry_name e)) (listing fs))
    | _ => Ret []
    end.

(** [max(l, key=...)] on a non-empty list: the first of the greatest. *)
Fixpoint max_by_mtime (best : Entry) (l : list Entry) : Entry :=
  match l with
  | [] => best
  | e :: l' => max_by_mtime (if st_mtime best <? st_mtime e then e else best) l'
  end.

(** [sorted(l, key=..., reverse=True)]: stable, greatest first. *)
Fixpoint insert_desc (e : Entry) (l : list Entry) : list Entry :=
  match l with
  | [] => [e]
  | x :: l' => if st_mtime x <=? st_mtime e then e :: l else x :: insert_desc e l'
  end.

Definition sorted_desc (l : list Entry) : list Entry := fold_right insert_desc [] l.

(** ** Job records and fetcher events *)

Inductive State : Type :=
| queued | starting | downloading | processing | finished | failed.

(** The text the source stores in [job["state"]]. *)
Definition state_name (s : State) : string :=
  match s with
  | queued => "queued"
  | starting => "starting"
  | downloading => "downloading"
  | processing => "processing"
  | finished => "finished"
  | failed => "error"
  end.

Record Job : Type := mkJob {
  id_ : string;
  state : State;
  progress : option Z;           (* hundredths of a percent *)
  eta : option Z;
  speed : option Z;
  ready : bool;
  file : option string;
  error : option string;
  video_id : option string;
  filename : option string;
  pp_filename : option string;
  start_ts : Z;
  merge_ext : string
}.

(** The dict [extract_info] returns, as far as the resolver reads it; an
    absent key and a key set to [None] are both [None]. *)
Record Info : Type := mkInfo {
  info_id : option string;
  info_title : option string;
  info_ext : option string;
  info_filename : option string  (* [_filename] *)
}.


(** [job[key] = v], one function a key. *)
Definition set_state (v : State) (j : Job) : Job :=
  mkJob (id_ j) v (progress j) (eta j) (speed j) (ready j) (file j) (error j) (video_id j) (filename j) (pp_filename j) (start_ts j) (merge_ext j).
Definition set_progress (v : option Z) (j : Job) : Job :=
  mkJob (id_ j) (state j) v (eta j) (speed j) (ready j) (file j) (error j) (video_id j) (filename j) (pp_filename j) (start_ts j) (merge_ext j).
Definition set_eta (v : option Z) (j : Job) : Job :=
  mkJob (id_ j) (state j) (progress j) v (speed j) (ready j) (file j) (error j) (video_id j) (filename j) (pp_filename j) (start_ts j) (merge_ext j).
Definition set_speed (v : option Z) (j : Job) : Job :=
  mkJob (id_ j) (state j) (progress j) (eta j) v (ready j) (file j) (error j) (video_id j) (filename j) (pp_filename j) (start_ts j) (merge_ext j).
Definition set_ready (v : bool) (j : Job) : Job :=
  mkJob (id_ j) (state j) (progress j) (eta j) (speed j) v (file j) (error j) (video_id j) (filename j) (pp_filename j) (start_ts j) (merge_ext j).
Definition set_file (v : option string) (j : Job) : Job :=
  mkJob (id_ j) (state j) (progress j) (eta j) (speed j) (ready j) v (error j) (video_id j) (filename j) (pp_filename j) (start_ts j) (merge_ext j).
Definition set_error (v : option string) (j : Job) : Job :=
  mkJob (id_ j) (state j) (progress j) (eta j) (speed j) (ready j) (file j) v (video_id j) (filename j) (pp_filename j) (start_ts j) (merge_ext j).
Definition set_video_id (v : option string) (j : Job) : Job :=
  mkJob (id_ j) (state j) (progress j) (eta j) (speed j) (ready j) (file j) (error j) v (filename j) (pp_filename j) (start_ts j) (merge_ext j).
Definition set_filename (v : option string) (j : Job) : Job :=
  mkJob (id_ j) (state j) (progress j) (eta j) (speed j) (ready j) (file j) (error j) (video_id j) v (pp_filename j) (start_ts j) (merge_ext j).
Definition set_pp_filename (v : option string) (j : Job) : Job :=
  mkJob (id_ j) (state j) (progress j) (eta j) (speed j) (ready j) (file j) (error j) (video_id j) (filename j) v (start_ts j) (merge_ext j).
Definition set_merge_ext (v : string) (j : Job) : Job :=
  mkJob (id_ j) (state j) (progress j) (eta j) (speed j) (ready j) (file j) (error j) (video_id j) (filename j) (pp_filename j) (start_ts j) v.

(** ** Output resolver *)

Definition find_final_file (fs : FS) (video_id : option string) : outcome (option Path) :=
  if negb (truthy video_id) then Ret None
  else
    matches ← glob fs ("*[" +:+ str_or_empty video_id +:+ "].*");
    match matches with
    | [] => Ret None
    | e :: rest => Ret (Some (child DOWNLOAD_DIR (entry_name (max_by_mtime e rest))))
    end.

(** Step 2: the candidates one hint gives. *)
Definition hint_candidates (hook_fn : option string) (selection audio_fmt merge : string)
  : outcome (list Path) :=
  if truthy hook_fn then
    let base := py_Path (str_or_empty hook_fn) in
    if String.eqb selection "10" then
      a ← with_suffix base ("." +:+ audio_fmt);
      Ret [base; a]
    else
      m ← (if negb (String.eqb merge "") && negb (String.eqb merge "auto")
           then x ← with_suffix base ("." +:+ merge); Ret [x]
           else Ret []);
      mp4 ← with_suffix base ".mp4";
      mkv ← with_suffix base ".mkv";
      Ret (base :: m ++ [mp4; mkv])
  else Ret [].

(** Step 3: the candidates the title gives. *)
Definition title_candidates (info : Info) (video_id : option string)
    (selection audio_fmt merge : string) : list Path :=
  let title := strip is_space (str_or_empty (info_title info)) in
  if negb (String.eqb title "") then
    let stem :=
      if truthy video_id then title +:+ " [" +:+ str_or_empty video_id +:+ "]" else title in
    if String.eqb selection "10" then
      [joinpath DOWNLOAD_DIR (stem +:+ "." +:+ audio_fmt)]
    else
      flat_map
        (fun ext =>
           let ext := lower (strip is_space ext) in
           if negb (String.eqb ext "") then [joinpath DOWNLOAD_DIR (stem +:+ "." +:+ ext)] else [])
        [ (if negb (String.eqb merge "") && negb (String.eqb merge "auto") then merge else "");
          str_or_empty (info_ext info); "mp4"; "mkv"; "webm" ]
  else [].

(** Step 4: the newest entry not older than the job by more than five seconds. *)
Definition newest_since (fs : FS) (start_ts : Z) : option Path :=
  match List.filter (fun q => start_ts - seconds 5 <=? st_mtime q) (sorted_desc (listing fs)) with
  | [] => None
  | q :: _ => Some (child DOWNLOAD_DIR (entry_name q))
  end.

Definition resolve_final_file (fs : FS) (info : Info) (job : Job)
    (selection audio_fmt merge : string) : outcome (option Path) :=
  let video_id := py_or (video_id job) (info_id info) in
  let start_ts := start_ts job in
  (* 1) By [id] pattern *)
  p ← find_final_file fs video_id;
  if from_option (exists_ fs) false p then Ret p
  else
    (* 2) From download hook filename *)
    let hook_fn := py_or (pp_filename job) (py_or (filename job) (info_filename info)) in
    hinted ← hint_candidates hook_fn selection audio_fmt merge;
    (* 3) From title + id *)
    let candidates := hinted ++ title_candidates info video_id selection audio_fmt merge in
    (* Test candidates *)
    match List.find (exists_ fs) candidates with
    | Some c => Ret (Some c)
    | None =>
        (* 4) Fallback *)
        Ret (newest_since fs start_ts)
    end.

(** ** Progress hook adapter *)

(** A progress event [d]; [d_info_id] is [d["info_dict"]["id"]]. *)
Record ProgressEvent : Type := mkProgress {
  d_status : option string;
  d_info_id : option string;
  d_total_bytes : option Z;
  d_total_bytes_estimate : option Z;
  d_downloaded_bytes : option Z;
  d_eta : option Z;
  d_speed : option Z;
  d_filename : option string
}.

(** A postprocessor event [d]: its status, [info_dict["filepath"]],
    [info_dict["_filename"]] and [d["filename"]]. *)
Record PostprocessEvent : Type := mkPostprocess {
  pp_status : option string;
  pp_filepath : option string;
  pp_info_filename : option string;
  pp_d_filename : option string
}.

(** [n / d] rounded to the nearest integer, ties to the even one ([0 < d]). *)
Definition round_half_even (n d : Z) : Z :=
  let q := n / d in
  let r := n mod d in
  if 2 * r <? d then q
  else if d <? 2 * r then q + 1
  else if Z.even q then q else q + 1.

(** [round(downloaded / total * 100, 2)] in hundredths, for [total] not
    zero; the quotient is exact here, where the source divides floats. *)
Definition percent_of (downloaded total : Z) : Z :=
  if 0 <? total then round_half_even (downloaded * 10000) total
  else round_half_even (- downloaded * 10000) (- total).

(** [d.get("total_bytes") or d.get("total_bytes_estimate") or 0]. *)
Definition event_total (d : ProgressEvent) : Z :=
  if truthy_num (d_total_bytes d) then default 0 (d_total_bytes d)
  else if truthy_num (d_total_bytes_estimate d) then default 0 (d_total_bytes_estimate d)
  else 0.

Definition is_status (d : option string) (s : string) : bool :=
  match d with
  | Some x => String.eqb x s
  | None => false
  end.

Definition hook (job_id : string) (d : ProgressEvent) (jobs : gmap string Job)
  : gmap string Job :=
  match jobs !! job_id with
  | None => jobs
  | Some job =>
      let status := d_status d in
      let total := event_total d in
      let downloaded := default 0 (d_downloaded_bytes d) in
      let percent := if total =? 0 then None else Some (percent_of downloaded total) in
      let job := if truthy (d_info_id d) then set_video_id (d_info_id d) job else job in
      let job := if truthy (d_filename d) then set_filename (d_filename d) job else job in
      let job :=
        if is_status status "downloading" then
          set_speed (d_speed d) (set_eta (d_eta d)
            (set_progress percent (set_state downloading job)))
        else if is_status status "finished" then
          set_progress (Some 10000) (set_state processing job)
        else job in
      <[job_id := job]> jobs
  end.

Definition pp_hook (job_id : string) (d : PostprocessEvent) (jobs : gmap string Job)
  : gmap string Job :=
  if is_status (pp_status d) "finished" then
    let fp := py_or (pp_filepath d) (py_or (pp_info_filename d) (pp_d_filename d)) in
    if truthy fp then
      match jobs !! job_id with
      | Some job => <[job_id := set_pp_filename fp job]> jobs
      | None => jobs
      end
    else jobs
  else jobs.

(** ** Job runner *)

(** The request payload, as far as the runner's state changes read it. *)
Record Payload : Type := mkPayload {
  p_url : option string;
  p_resolution : option string;
  p_merge : option string;
  p_audioFmt : option string
}.

Definition selection_of (payload : Payload) : string := default "4" (p_resolution payload).
Definition merge_of (payload : Payload) : string := default "mp4" (p_merge payload).
Definition audio_fmt_of (payload : Payload) : string := default "m4a" (p_audioFmt payload).

(** One call of a hook by the fetcher. *)
Inductive HookCall : Type :=
| Progress (d : ProgressEvent)
| Postprocess (d : PostprocessEvent).

Definition call_hook (job_id : string) (c : HookCall) (jobs : gmap string Job)
  : gmap string Job :=
  match c with
  | Progress d => hook job_id d jobs
  | Postprocess d => pp_hook job_id d jobs
  end.

(** [jobs[job_id].update(...)]: [None] is the [KeyError] of a missing job. *)
Definition update_job (job_id : string) (f : Job -> Job) (jobs : gmap string Job)
  : option (gmap string Job) :=
  job ← jobs !! job_id; Some (<[job_id := f job]> jobs).

(** Lines 285-286. *)
Definition mark_starting (j : Job) : Job := set_progress (Some 0) (set_state starting j).

(** Lines 294-296. *)
Definition note_merge_ext (payload : Payload) (j : Job) : Job :=
  let merge := merge_of payload in
  set_merge_ext
    (if negb (String.eqb merge "") && negb (String.eqb merge "auto")
        && negb (String.eqb (selection_of payload) "10")
     then merge else "") j.

(** Lines 299-305; a [Path] is always truthy. *)
Definition mark_finished (final_path : option Path) (j : Job) : Job :=
  set_error (match final_path with
             | Some _ => None
             | None => Some "File not found after download"
             end)
    (set_file (option_map str_path final_path)
       (set_ready (bool_decide (is_Some final_path))
          (set_state finished j))).

(** Lines 307-312. *)
Definition mark_error (msg : string) (j : Job) : Job :=
  set_error (Some msg) (set_state failed j).

(** Lines 297-312: resolve, then write the outcome back. *)
Definition finalize (fs : FS) (job_id : string) (payload : Payload) (info : Info)
    (jobs : gmap string Job) : option (gmap string Job) :=
  job ← jobs !! job_id;
  match resolve_final_file fs info job
          (selection_of payload) (audio_fmt_of payload) (merge_of payload) with
  | Ret final_path => update_job job_id (mark_finished final_path) jobs
  | Raise msg => update_job job_id (mark_error msg) jobs
  end.

(** ** HTTP handlers *)

Inductive Method : Type := GET | HEAD.

Record StatusView : Type := mkStatusView {
  view_id : string;
  view_state : string;
  view_progress : option Z;
  view_eta : option Z;
  view_speed : option Z;
  view_ready : bool;
  view_error : option string
}.

Inductive Response : Type :=
| Accepted (job_id : string)                 (* 200, [{"job_id": ...}] *)
| BadRequest (msg : string)                  (* 400 *)
| NotFound (msg : string)                    (* 404 *)
| Conflict (msg : string)                    (* 409 *)
| Gone (msg : string)                        (* 410 *)
| StatusOk (view : StatusView)               (* 200 *)
| HeadOk (path : string)                     (* 200, headers only *)
| FileOk (path : string).                    (* 200, the file as an attachment *)

(** The record [api_download] stores. *)
Definition new_job (job_id : string) (now : Z) : Job :=
  {| id_ := job_id; state := queued; progress := Some 0; eta := None; speed := None;
     ready := false; file := None; error := None; video_id := None; filename := None;
     pp_filename := None; start_ts := now; merge_ext := "" |}.

Definition api_status (job_id : string) (jobs : gmap string Job) : Response * gmap string Job :=
  match jobs !! job_id with
  | None => (NotFound "job not found", jobs)
  | Some job =>
      (StatusOk {| view_id := id_ job; view_state := state_name (state job);
                   view_progress := progress job; view_eta := eta job;
                   view_speed := speed job; view_ready := ready job;
                   view_error := error job |}, jobs)
  end.

Definition api_file (job_id : string) (method : Method) (fs : FS) (jobs : gmap string Job)
  : Response * gmap string Job :=
  match jobs !! job_id with
  | None => (NotFound "job not found", jobs)
  | Some job =>
      let path := file job in
      if negb (ready job) || negb (truthy path) then (Conflict "file not ready", jobs)
      else
        let p := py_Path (str_or_empty path) in
        if negb (exists_ fs p) then (Gone "file missing", jobs)
        else
          match method with
          | HEAD => (HeadOk (str_path p), jobs)
          | GET => (FileOk (str_path p), jobs)
          end
  end.

(** ** The running system *)

(** Where the thread of a job stands in [run_download]. *)
Inductive Phase : Type :=
| Spawned                      (* created, before line 285 *)
| Fetching                     (* inside [extract_info] *)
| Resolving (info : Info)      (* [extract_info] returned, line 297 *)
| Done.

Record Thread : Type := mkThread { payload : Payload; phase : Phase }.

Record System : Type := mkSystem {
  jobs : gmap string Job;
  threads : gmap string Thread
}.

Definition initial : System := mkSystem ∅ ∅.

(** [api_download]: [new_id] is [uuid4().hex[:12]], [now] is [time.time()]. *)
Definition api_download (data : Payload) (new_id : string) (now : Z) (s : System)
  : Response * System :=
  let url := strip is_space (str_or_empty (p_url data)) in
  if String.eqb url "" then (BadRequest "URL is required", s)
  else (Accepted new_id,
        mkSystem (<[new_id := new_job new_id now]> (jobs s))
                 (<[new_id := mkThread data Spawned]> (threads s))).

(** One atomic step: a request served, or one critical section of
    [run_download] with what the fetcher and the disk did before it. *)
Inductive Action : Type :=
| Submit (data : Payload) (new_id : string) (now : Z)
| Start (job_id : string)
| Call (job_id : string) (c : HookCall)
| FetchRaised (job_id : string) (msg : string)
| FetchReturned (job_id : string) (info : Info)
| Finalize (job_id : string) (fs : FS)
| GetStatus (job_id : string)
| GetFile (job_id : string) (method : Method) (fs : FS).

(** The thread of [job_id] moves to [ph], the store becoming [js]; a
    [KeyError] ([js] is [None]) ends the thread. *)
Definition advance (job_id : string) (t : Thread) (ph : Phase)
    (js : option (gmap string Job)) (s : System) : System :=
  match js with
  | Some jobs' => mkSystem jobs' (<[job_id := mkThread (payload t) ph]> (threads s))
  | None => mkSystem (jobs s) (<[job_id := mkThread (payload t) Done]> (threads s))
  end.

(** [None]: the action cannot happen in [s].  Job identifiers are taken
    to be fresh, as [uuid4] is relied on to give them. *)
Definition do_action (a : Action) (s : System) : option System :=
  match a with
  | Submit data new_id now =>
      match jobs s !! new_id, threads s !! new_id with
      | None, None => Some (snd (api_download data new_id now s))
      | _, _ => None
      end
  | Start job_id =>
      t ← threads s !! job_id;
      match phase t with
      | Spawned => Some (advance job_id t Fetching (update_job job_id mark_starting (jobs s)) s)
      | _ => None
      end
  | Call job_id c =>
      t ← threads s !! job_id;
      match phase t with
      | Fetching => Some (advance job_id t Fetching (Some (call_hook job_id c (jobs s))) s)
      | _ => None
      end
  | FetchRaised job_id msg =>
      t ← threads s !! job_id;
      match phase t with
      | Fetching => Some (advance job_id t Done (update_job job_id (mark_error msg) (jobs s)) s)
      | _ => None
      end
  | FetchReturned job_id info =>
      t ← threads s !! job_id;
      match phase t with
      | Fetching =>
          Some (advance job_id t (Resolving info)
                  (Some (default (jobs s) (update_job job_id (note_merge_ext (payload t)) (jobs s)))) s)
      | _ => None
      end
  | Finalize job_id fs =>
      t ← threads s !! job_id;
      match phase t with
      | Resolving info => Some (advance job_id t Done (finalize fs job_id (payload t) info (jobs s)) s)
      | _ => None
      end
  | GetStatus job_id => Some (mkSystem (snd (api_status job_id (jobs s))) (threads s))
  | GetFile job_id method fs => Some (mkSystem (snd (api_file job_id method fs (jobs s))) (threads s))
  end.

Definition step (s s' : System) : Prop := exists a, do_action a s = Some s'.

Fixpoint run (actions : list Action) (s : System) : option System :=
  match actions with
  | [] => Some s
  | a :: actions' => s' ← do_action a s; run actions' s'
  end.

Definition reachable (s : System) : Prop := exists actions, run actions initial = Some s.

(** What the fetcher does in one run of [extract_info]: it calls the
    hooks, then returns or raises. *)
Inductive FetchResult : Type :=
| Returned (info : Info)
| Raised (msg : string).

(** The critical sections of one run of [run_download], in order. *)
Definition thread_actions (job_id : string) (hook_calls : list HookCall)
    (result : FetchResult) (fs : FS) : list Action :=
  Start job_id :: map (Call job_id) hook_calls ++
  match result with
  | Returned info => [FetchReturned job_id info; Finalize job_id fs]
  | Raised msg => [FetchRaised job_id msg]
  end.

(** [run_download(job_id, payload)] when no other thread runs in between;
    the payload is the one [api_download] handed to the thread. *)
Definition run_download (job_id : string) (hook_calls : list HookCall)
    (result : FetchResult) (fs : FS) (s : System) : option System :=
  run (thread_actions job_id hook_calls result fs) s.

(** ** URLs ([urllib.parse]) *)

Record ParseResult : Type := mkParseResult {
  scheme : string;
  netloc : string;
  path : string;
  params : string;
  query : string;
  fragment : string
}.

Definition is_c0_or_space (c : ascii) : bool := (code c <=? 32)%N.

Definition is_tab_cr_lf (c : ascii) : bool :=
  Ascii.eqb c "009" || Ascii.eqb c "013" || Ascii.eqb c "010".

Definition is_scheme_char (c : ascii) : bool :=
  is_alpha c || is_digit c || Ascii.eqb c "+" || Ascii.eqb c "-" || Ascii.eqb c ".".

Definition is_netloc_end (c : ascii) : bool :=
  Ascii.eqb c "/" || Ascii.eqb c "?" || Ascii.eqb c "#".

(** The longest prefix free of [p], and what follows it. *)
Fixpoint break_at (p : ascii -> bool) (s : string) : string * string :=
  match s with
  | "" => ("", "")
  | String c s' =>
      if p c then ("", s)
      else let '(a, b) := break_at p s' in (String c a, b)
  end.

Definition uses_params : list string :=
  [""; "ftp"; "hdl"; "prospero"; "http"; "imap"; "https"; "shttp"; "rtsp"; "rtspu";
   "sip"; "sips"; "mms"; "sftp"; "tel"].

(** [url.split(c, 1)] when [c] occurs, [(url, "")] otherwise. *)
Definition split_once (c : ascii) (url : string) : string * string :=
  match partition c url with
  | Some (a, b) => (a, b)
  | None => (url, "")
  end.

(** The text up to and with the last slash, and the text after it. *)
Fixpoint split_last_slash (s : string) : string * string :=
  match s with
  | "" => ("", "")
  | String c s' =>
      if contains "/" s' then let '(a, b) := split_last_slash s' in (String c a, b)
      else if Ascii.eqb c "/" then ("/", s') else ("", s)
  end.

(** [_splitparams]: the parameters of the last path segment. *)
Definition splitparams (url : string) : string * string :=
  let '(dir, lastseg) := split_last_slash url in
  match partition ";" lastseg with
  | Some (a, b) => (dir +:+ a, b)
  | None => (url, "")
  end.

Section Urlparse.

(** Two checks of [urlsplit] are left to the library: whether
    [_check_bracketed_netloc] accepts a netloc that holds both brackets
    (it parses IP addresses), and whether [_checknetloc] accepts a netloc
    that is not ASCII (it normalises Unicode).  Either can only turn a
    result into a [ValueError]. *)
Variable bracketed_netloc_ok : string -> bool.
Variable nfkc_netloc_ok : string -> bool.

(** [urlsplit(url)]; [None] is a [ValueError]. *)
Definition urlsplit (url : string) : option ParseResult :=
  let url := lstrip is_c0_or_space url in
  let url := remove_char is_tab_cr_lf url in
  let '(scheme, url) :=
    match partition ":" url with
    | Some (String c0 _ as before, after) =>
        if is_ascii c0 && is_alpha c0 && all_chars is_scheme_char before
        then (lower before, after) else ("", url)
    | _ => ("", url)
    end in
  let '(netloc, url) :=
    if startswith "//" url
    then break_at is_netloc_end (substring 2 (String.length url - 2) url)
    else ("", url) in
  let open := contains "[" netloc in
  let close := contains "]" netloc in
  if xorb open close then None
  else if open && close && negb (bracketed_netloc_ok netloc) then None
  else
    let '(url, fragment) := split_once "#" url in
    let '(url, query) := split_once "?" url in
    if negb (String.eqb netloc "" || all_chars is_ascii netloc)
       && negb (nfkc_netloc_ok netloc)
    then None
    else Some (mkParseResult scheme netloc url "" query fragment).

(** [urlparse(url)]. *)
Definition urlparse (url : string) : option ParseResult :=
  r ← urlsplit url;
  if existsb (String.eqb (scheme r)) uses_params && contains ";" (path r)
  then
    let '(url, params) := splitparams (path r) in
    Some (mkParseResult (scheme r) (netloc r) url params (query r) (fragment r))
  else Some r.

End Urlparse.

Definition hex_value (c : ascii) : option N :=
  if is_digit c then Some (code c - 48)%N
  else if in_range "a" "f" c then Some (code c - 87)%N
  else if in_range "A" "F" c then Some (code c - 55)%N
  else None.

(** [unquote_to_bytes]: a percent sign stays when two hexadecimal digits
    do not follow it. *)
Fixpoint unquote_to_bytes (s : string) : string :=
  match s with
  | "" => ""
  | String c rest =>
      match rest with
      | String a (String b rest') =>
          match Ascii.eqb c "%", hex_value a, hex_value b with
          | true, Some x, Some y => String (ascii_of_N (16 * x + y)) (unquote_to_bytes rest')
          | _, _, _ => String c (unquote_to_bytes rest)
          end
      | _ => String c (unquote_to_bytes rest)
      end
  end.

(** U+FFFD in UTF-8. *)
Definition replacement : string :=
  String (ascii_of_N 239) (String (ascii_of_N 191) (String (ascii_of_N 189) "")).

Definition between (lo hi : N) (c : ascii) : bool := ((lo <=? code c) && (code c <=? hi))%N.

(** The bounds of the byte that may follow the lead byte [n]
    (the Unicode standard's table of well-formed sequences). *)
Definition second_bounds (n : N) : N * N :=
  if (n =? 224)%N then (160, 191)%N
  else if (n =? 237)%N then (128, 159)%N
  else if (n =? 240)%N then (144, 191)%N
  else if (n =? 244)%N then (128, 143)%N
  else (128, 191)%N.

(** [bytes.decode("utf-8", "replace")], the result held in UTF-8 again:
    each ill-formed run, cut where it stops being a prefix of a
    well-formed sequence, becomes one U+FFFD. *)
Fixpoint utf8_replace (s : string) : string :=
  match s with
  | "" => ""
  | String b0 r0 =>
      let n := code b0 in
      let '(lo, hi) := second_bounds n in
      if (n <? 128)%N then String b0 (utf8_replace r0)
      else if between 194 223 b0 then
        match r0 with
        | String b1 r1 =>
            if between 128 191 b1 then String b0 (String b1 (utf8_replace r1))
            else replacement +:+ utf8_replace r0
        | "" => replacement
        end
      else if between 224 239 b0 then
        match r0 with
        | String b1 r1 =>
            if between lo hi b1 then
              match r1 with
              | String b2 r2 =>
                  if between 128 191 b2
                  then String b0 (String b1 (String b2 (utf8_replace r2)))
                  else replacement +:+ utf8_replace r1
              | "" => replacement
              end
            else replacement +:+ utf8_replace r0
        | "" => replacement
        end
      else if between 240 244 b0 then
        match r0 with
        | String b1 r1 =>
            if between lo hi b1 then
              match r1 with
              | String b2 r2 =>
                  if between 128 191 b2 then
                    match r2 with
                    | String b3 r3 =>
                        if between 128 191 b3
                        then String b0 (String b1 (String b2 (String b3 (utf8_replace r3))))
                        else replacement +:+ utf8_replace r2
                    | "" => replacement
                    end
                  else replacement +:+ utf8_replace r1
              | "" => replacement
              end
            else replacement +:+ utf8_replace r0
        | "" => replacement
        end
      else replacement +:+ utf8_replace r0
  end.

(** The runs of ASCII characters are unquoted and decoded one by one,
    what lies between them is kept; [run] is the run being read, reversed. *)
Fixpoint unquote_runs (run : list ascii) (s : string) : string :=
  match s with
  | "" => utf8_replace (unquote_to_bytes (string_of_list_ascii (rev run)))
  | String c s' =>
      if is_ascii c then unquote_runs (c :: run) s'
      else utf8_replace (unquote_to_bytes (string_of_list_ascii (rev run)))
           +:+ String c (unquote_runs [] s')
  end.

(** [unquote(s)]. *)
Definition unquote (s : string) : string :=
  if contains "%" s then unquote_runs [] s else s.

(** [parse_qsl(qs)] with its defaults: blank values dropped, [&] the separator. *)
Definition parse_qsl (qs : string) : list (string * string) :=
  flat_map
    (fun name_value =>
       match partition "=" name_value with
       | Some (name, value) =>
           if negb (String.eqb value "")
           then [(unquote (replace_char "+" " " name), unquote (replace_char "+" " " value))]
           else []
       | None => []
       end)
    (if String.eqb qs "" then [] else split "&" qs).

(** [parse_qs(qs)]. *)
Definition parse_qs (qs : string) : gmap string (list string) :=
  fold_left
    (fun parsed_result nv =>
       match parsed_result !! fst nv with
       | Some values => <[fst nv := values ++ [snd nv]]> parsed_result
       | None => <[fst nv := [snd nv]]> parsed_result
       end)
    (parse_qsl qs) ∅.

Definition watch_url (vid : string) : string := "https://www.youtube.com/watch?v=" +:+ vid.

Section Normalize.

Variable bracketed_netloc_ok : string -> bool.
Variable nfkc_netloc_ok : string -> bool.

Definition normalize_youtube_url (u : string) : string :=
  match urlparse bracketed_netloc_ok nfkc_netloc_ok u with
  | None => u                                         (* [except Exception: pass] *)
  | Some p =>
      let host := lower (netloc p) in
      let path := path p in
      let short :=
        if infix "youtu.be" host
        then hd "" (split "/" (strip is_slash path)) else "" in
      if negb (String.eqb short "") then watch_url short
      else if infix "youtube.com" host then
        let shorts :=
          if startswith "/shorts/" path
          then nth 1 (split "/" (strip is_slash path)) "" else "" in
        if negb (String.eqb shorts "") then watch_url shorts
        else if startswith "/watch" path then
          match parse_qs (query p) !! "v" with
          | Some (v :: _) => watch_url v
          | _ => u
          end
        else u
      else u
  end.

End Normalize.

(** ** Notions the statements below use *)

(** What [hook] does to the record it finds. *)
Definition hook_update (d : ProgressEvent) (job : Job) : Job :=
  let total := event_total d in
  let downloaded := default 0 (d_downloaded_bytes d) in
  let percent := if total =? 0 then None else Some (percent_of downloaded total) in
  let job := if truthy (d_info_id d) then set_video_id (d_info_id d) job else job in
  let job := if truthy (d_filename d) then set_filename (d_filename d) job else job in
  if is_status (d_status d) "downloading" then
    set_speed (d_speed d) (set_eta (d_eta d)
      (set_progress percent (set_state downloading job)))
  else if is_status (d_status d) "finished" then
    set_progress (Some 10000) (set_state processing job)
  else job.

(** What [pp_hook] does to the record it finds. *)
Definition pp_hook_update (d : PostprocessEvent) (job : Job) : Job :=
  let fp := py_or (pp_filepath d) (py_or (pp_info_filename d) (pp_d_filename d)) in
  if is_status (pp_status d) "finished" && truthy fp then set_pp_filename fp job else job.

Definition call_update (c : HookCall) (job : Job) : Job :=
  match c with
  | Progress d => hook_update d job
  | Postprocess d => pp_hook_update d job
  end.


(** The place of a state in the chain
    queued, starting, downloading, processing, finished or error. *)
Definition state_rank (s : State) : Z :=
  match s with
  | queued => 0
  | starting => 1
  | downloading => 2
  | processing => 3
  | finished => 4
  | failed => 4
  end.


(** A downloading event that reports [downloaded] of [total] bytes. *)
Definition downloading_event (downloaded total : Z) : ProgressEvent :=
  {| d_status := Some "downloading"; d_info_id := None;
     d_total_bytes := Some total; d_total_bytes_estimate := None;
     d_downloaded_bytes := Some downloaded; d_eta := None; d_speed := None;
     d_filename := None |}.

(** A progress event that only carries the identifier [vid]. *)
Definition id_event (vid : string) : ProgressEvent :=
  {| d_status := Some "downloading"; d_info_id := Some vid;
     d_total_bytes := None; d_total_bytes_estimate := None;
     d_downloaded_bytes := None; d_eta := None; d_speed := None;
     d_filename := None |}.

Definition finished_event : ProgressEvent :=
  {| d_status := Some "finished"; d_info_id := None;
     d_total_bytes := None; d_total_bytes_estimate := None;
     d_downloaded_bytes := None; d_eta := None; d_speed := None;
     d_filename := None |}.






(** A path whose text is not empty: it has a root, or no component at
    all (it prints as a dot), or a first component that is not empty. *)
Definition solid (p : Path) : Prop :=
  root p <> "" \/
  match parts p with
  | [] => True
  | x :: _ => x <> ""
  end.

(** A record the runner has not finalized yet. *)
Definition pending (j : Job) : Prop :=
  ready j = false /\ file j = None /\ error j = None.

Definition in_flight (j : Job) : Prop :=
  state j = starting \/ state j = downloading \/ state j = processing.

(** A record the runner has finalized: the artifact was found, or it was
    not, or the run raised. *)
Definition settled (j : Job) : Prop :=
  (state j = finished /\ ready j = true /\ (exists p, file j = Some p /\ p <> "")
   /\ error j = None)
  \/ (state j = finished /\ ready j = false /\ file j = None
      /\ error j = Some "File not found after download")
  \/ (state j = failed /\ ready j = false /\ file j = None /\ exists msg, error j = Some msg).

(** What the place of a job's thread says of its record. *)
Definition job_ok (t : option Thread) (j : option Job) : Prop :=
  match t, j with
  | None, None => True
  | Some t, Some j =>
      match phase t with
      | Spawned => state j = queued /\ pending j
      | Fetching | Resolving _ => in_flight j /\ pending j
      | Done => settled j
      end
  | _, _ => False
  end.

Definition invariant (s : System) : Prop :=
  forall id : string, job_ok (threads s !! id) (jobs s !! id).

(** The writes a thread makes to its record [j], each with the action
    that makes it. *)
Inductive writes (id : string) (t : Thread) (j : Job) : Action -> Job -> Prop :=
| writes_start :
    phase t = Spawned -> writes id t j (Start id) (mark_starting j)
| writes_call (c : HookCall) :
    phase t = Fetching -> writes id t j (Call id c) (call_update c j)
| writes_raised (msg : string) :
    phase t = Fetching -> writes id t j (FetchRaised id msg) (mark_error msg j)
| writes_returned (info : Info) :
    phase t = Fetching ->
    writes id t j (FetchReturned id info) (note_merge_ext (payload t) j)
| writes_resolved (info : Info) (fs : FS) (final_path : option Path) :
    phase t = Resolving info ->
    writes id t j (Finalize id fs) (mark_finished final_path j)
| writes_failed (info : Info) (fs : FS) (msg : string) :
    phase t = Resolving info ->
    writes id t j (Finalize id fs) (mark_error msg j).

(** A run in which the artifact is found, one in which it is not, and one
    that is still fetching after a finished event. *)
Definition disk_with (name : string) : FS :=
  mkFS [mkEntry name 0] (fun s => String.eqb s ("downloads/" +:+ name)).

Definition empty_disk : FS := mkFS [] (fun _ => false).

Definition some_payload : Payload :=
  mkPayload (Some "https://youtu.be/abc123") None None None.

Definition no_info : Info := mkInfo None None None None.

Definition found_actions : list Action :=
  Submit some_payload "j" (seconds 100)
  :: thread_actions "j" [Progress (downloading_event 50 100); Progress finished_event]
       (Returned (mkInfo (Some "a") (Some "x") None None)) (disk_with "x [a].mp4").

Definition not_found_actions : list Action :=
  Submit some_payload "j" (seconds 100)
  :: thread_actions "j" [Progress finished_event] (Returned no_info) empty_disk.

Definition processing_actions : list Action :=
  [Submit some_payload "j" (seconds 100); Start "j";
   Call "j" (Progress (downloading_event 50 100));
   Call "j" (Progress finished_event)].

Definition run_found : System := default initial (run found_actions initial).
Definition run_not_found : System := default initial (run not_found_actions initial).
Definition run_processing : System := default initial (run processing_actions initial).

(** The records the three runs leave under ["j"]. *)
Definition found_job : Job := default (new_job "j" 0) (jobs run_found !! "j").
Definition not_found_job : Job := default (new_job "j" 0) (jobs run_not_found !! "j").
Definition processing_job : Job := default (new_job "j" 0) (jobs run_processing !! "j").

(** The hint step 2 works from: the first that is set among the
    postprocess hint, the observed filename and the fetcher's own. *)
Definition selected_hint (job : Job) (info : Info) : option string :=
  py_or (pp_filename job) (py_or (filename job) (info_filename info)).

(** A disk that holds exactly the paths [names], with the entries [entries]
    in the download directory. *)
Definition disk_of (entries : list Entry) (names : list string) : FS :=
  mkFS entries (fun s => existsb (String.eqb s) names).

(** A download directory where a stale file, a partial file and the
    artifact of the video [abc123] lie side by side. *)
Definition three_files : FS :=
  disk_of [mkEntry "Title [abc123].mp4" (seconds 50); mkEntry "a.txt" (seconds 10);
           mkEntry "b.part" (seconds 30)]
    ["downloads/Title [abc123].mp4"; "downloads/a.txt"; "downloads/b.part";
     "downloads/Title [abc123].webm"].

(** A job that holds both hints, of which only the observed file exists. *)
Definition two_hints_job : Job :=
  set_filename (Some "downloads/b.webm")
    (set_pp_filename (Some "downloads/a.m4a") (new_job "j" (seconds 100))).


(** A job with a postprocess hint that exists on disk. *)
Definition hinted_job : Job :=
  set_video_id (Some "abc123")
    (set_pp_filename (Some "downloads/Title [abc123].webm") (new_job "j" (seconds 100))).

(** The characters that do not survive a second normalization: those
    [parse_qs] decodes or splits at, the one that starts a fragment, and
    those [urlsplit] removes. *)
Definition is_plain (c : ascii) : bool :=
  negb (Ascii.eqb c "%" || Ascii.eqb c "+" || Ascii.eqb c "&" || Ascii.eqb c "#"
        || is_tab_cr_lf c).

(** Letters, digits and the underscore. *)
Definition is_word (c : ascii) : bool := is_alpha c || is_digit c || Ascii.eqb c "_".

(** Some character of [set] stands right before a dot in [name]. *)
Fixpoint char_before_dot (set : string) (name : string) : bool :=
  match name with
  | "" => false
  | String c rest => (startswith "." rest && contains c set) || char_before_dot set rest
  end.

(** The set that holds the characters [l], each as a range of its own. *)
Definition singles (l : list ascii) : list (ascii * ascii) := map (fun c => (c, c)) l.

(** ** Output template and fetch request ([build_outtmpl], [run_download] 173-239) *)

Definition default_tpl : string :=
  str_path (joinpath DOWNLOAD_DIR "%(title).200B [%(id)s].%(ext)s").

Definition build_outtmpl (filename_choice filename_custom : string) : string :=
  if negb (String.eqb filename_choice "custom")
     || String.eqb (strip is_space filename_custom) ""
  then default_tpl
  else
    let name := strip is_space filename_custom in
    (* If looks like a yt-dlp template, use as-is *)
    if infix "%(" name && infix ")s" name then str_path (joinpath DOWNLOAD_DIR name)
    (* If no extension, allow yt-dlp to choose ext dynamically *)
    else if negb (contains "." (path_name (py_Path name)))
    then str_path (joinpath DOWNLOAD_DIR (name +:+ ".%(ext)s"))
    (* Else fixed filename (with given extension) *)
    else str_path (joinpath DOWNLOAD_DIR name).

Definition UA_PRESETS : gmap string string :=
  list_to_map
    [("chrome_win", "Mozilla/5.0 (Windows NT 10.0; Win64; x64) AppleWebKit/537.36 (KHTML, like Gecko) Chrome/124.0.0.0 Safari/537.36");
     ("firefox_linux", "Mozilla/5.0 (X11; Linux x86_64; rv:125.0) Gecko/20100101 Firefox/125.0");
     ("safari_mac", "Mozilla/5.0 (Macintosh; Intel Mac OS X 13_5) AppleWebKit/605.1.15 (KHTML, like Gecko) Version/16.5 Safari/605.1.15");
     ("chrome_android", "Mozilla/5.0 (Linux; Android 13; SM-S911B) AppleWebKit/537.36 (KHTML, like Gecko) Chrome/124.0.0.0 Mobile Safari/537.36");
     ("safari_ios", "Mozilla/5.0 (iPhone; CPU iPhone OS 17_4 like Mac OS X) AppleWebKit/605.1.15 (KHTML, like Gecko) Version/17.4 Mobile/15E148 Safari/604.1")].

Definition DEFAULT_UA : string := default "" (UA_PRESETS !! "chrome_win").

Definition FORMAT_MAP : gmap string string :=
  list_to_map
    [("1", "bv*[height<=4320]+ba/b[height<=4320]");
     ("2", "bv*[height<=2160]+ba/b[height<=2160]");
     ("3", "bv*[height<=1440]+ba/b[height<=1440]");
     ("4", "bv*[height<=1080]+ba/b[height<=1080]");
     ("5", "bv*[height<=720]+ba/b[height<=720]");
     ("6", "bv*[height<=480]+ba/b[height<=480]");
     ("7", "bv*[height<=360]+ba/b[height<=360]");
     ("8", "bv*[height<=240]+ba/b[height<=240]");
     ("9", "bv*[height<=144]+ba/b[height<=144]");
     ("10", "ba/b")].

(** The keys of the payload that only the fetch request reads. *)
Record PayloadRest : Type := mkPayloadRest {
  p_uaChoice : option string;
  p_uaCustom : option string;
  p_filenameChoice : option string;
  p_filenameCustom : option string;
  p_cookiesFrom : option string
}.

Record Postprocessor : Type := mkPostprocessor {
  key : string;
  preferredcodec : string;
  preferredquality : string
}.

(** The dict [ydl_opts], a key that may be absent as an option; the two
    hook lists, which hold [hook] and [pp_hook], are left out. *)
Record YdlOpts : Type := mkYdlOpts {
  noplaylist : bool;
  outtmpl : string;
  retries : Z;
  fragment_retries : Z;
  socket_timeout : Z;
  ffmpeg_location : option string;
  http_headers : gmap string string;
  merge_output_format : option string;
  format : string;
  postprocessors : list Postprocessor;
  player_client : option (list string);      (* [extractor_args["youtube"]["player_client"]] *)
  concurrent_fragment_downloads : option Z;
  geo_bypass : option bool;
  cookiesfrombrowser : option string
}.

Definition is_youtube (url : string) : bool :=
  infix "youtu.be" url || infix "youtube.com" url.

Definition cookie_browsers : list string := ["chrome"; "edge"; "firefox"; "brave"].

Section FetchRequest.

(** The two library checks [urlsplit] relies on, and the environment:
    [FFMPEG_PATH] as the module computes it, and [COOKIES_BROWSER]. *)
Variable bracketed_netloc_ok : string -> bool.
Variable nfkc_netloc_ok : string -> bool.
Variable FFMPEG_PATH : option string.
Variable COOKIES_BROWSER : option string.

(** The URL handed to the fetcher. *)
Definition request_url (payload : Payload) : string :=
  normalize_youtube_url bracketed_netloc_ok nfkc_netloc_ok
    (strip is_space (str_or_empty (p_url payload))).

(** Lines 173-239: the options [YoutubeDL] is created with. *)
Definition ydl_options (payload : Payload) (rest : PayloadRest) : YdlOpts :=
  let url := request_url payload in
  let selection := selection_of payload in
  let merge := merge_of payload in
  let audio_fmt := audio_fmt_of payload in
  let ua_choice := default "" (p_uaChoice rest) in
  let ua_custom := strip is_space (str_or_empty (p_uaCustom rest)) in
  let filename_choice := default "" (p_filenameChoice rest) in
  let filename_custom := default "" (p_filenameCustom rest) in
  let cookies_from := lower (strip is_space (str_or_empty (p_cookiesFrom rest))) in
  let fmt := default (default "" (FORMAT_MAP !! "4")) (FORMAT_MAP !! selection) in
  let outtmpl := build_outtmpl filename_choice filename_custom in
  (* Headers and UA *)
  let user_agent :=
    if String.eqb ua_choice "custom" && negb (String.eqb ua_custom "") then ua_custom
    else match UA_PRESETS !! ua_choice with
         | Some ua => ua
         | None => DEFAULT_UA
         end in
  let headers : gmap string string := <["User-Agent" := user_agent]> ∅ in
  (* Merge format (not for audio-only) *)
  let merge_output_format :=
    if negb (String.eqb merge "") && negb (String.eqb merge "auto")
       && negb (String.eqb selection "10")
    then Some merge else None in
  (* Audio-only postprocess *)
  let postprocessors :=
    if String.eqb selection "10"
    then [mkPostprocessor "FFmpegExtractAudio" audio_fmt "0"] else [] in
  (* YouTube-specific tweaks *)
  let youtube := is_youtube url in
  let cookies_env := lower (strip is_space (str_or_empty COOKIES_BROWSER)) in
  let pick_cookies := if negb (String.eqb cookies_from "") then cookies_from else cookies_env in
  {| noplaylist := true;
     outtmpl := outtmpl;
     retries := 10;
     fragment_retries := 10;
     socket_timeout := 30;
     ffmpeg_location := if truthy FFMPEG_PATH then FFMPEG_PATH else None;
     http_headers :=
       if youtube then <["Referer" := "https://www.youtube.com"]> headers else headers;
     merge_output_format := merge_output_format;
     format := fmt;
     postprocessors := postprocessors;
     player_client := if youtube then Some ["android"; "web"] else None;
     concurrent_fragment_downloads := if youtube then Some 1 else None;
     geo_bypass := if youtube then Some true else None;
     cookiesfrombrowser :=
       if youtube && existsb (String.eqb pick_cookies) cookie_browsers
       then Some pick_cookies else None |}.

End FetchRequest.

(** ** Notions for the further properties *)

(** A record that keeps its identifier and creation time, and each hint
    that was set. *)
Definition keeps (j j' : Job) : Prop :=
  id_ j' = id_ j
  /\ start_ts j' = start_ts j
  /\ (truthy (video_id j) = true -> truthy (video_id j') = true)
  /\ (truthy (filename j) = true -> truthy (filename j') = true)
  /\ (truthy (pp_filename j) = true -> truthy (pp_filename j') = true).

(** The record of a job after the hook calls of one fetch. *)
Definition after_calls (calls : list HookCall) (j : Job) : Job :=
  fold_left (fun j c => call_update c j) calls j.

(** Greatest modification time first. *)
Fixpoint descending (l : list Entry) : Prop :=
  match l with
  | [] => True
  | x :: l' => (forall y, In y l' -> st_mtime y <= st_mtime x) /\ descending l'
  end.

(** The characters of a video identifier: letters, digits, [_] and [-]. *)
Definition is_id_char (c : ascii) : bool := is_word c || Ascii.eqb c "-".


(** A system in which the thread and the record of [id] were replaced. *)
Definition with_job (s : System) (id : string) (pl : Payload) (ph : Phase) (j : Job) : System :=
  mkSystem (<[id := j]> (jobs s)) (<[id := mkThread pl ph]> (threads s)).

(** The record [run_download] leaves once the fetcher has returned
    (lines 297-312). *)
Definition resolved (fs : FS) (pl : Payload) (info : Info) (j : Job) : Job :=
  match resolve_final_file fs info j (selection_of pl) (audio_fmt_of pl) (merge_of pl) with
  | Ret final_path => mark_finished final_path j
  | Raise msg => mark_error msg j
  end.

(** The record one whole run of [run_download] leaves. *)
Definition outcome_of (pl : Payload) (calls : list HookCall) (result : FetchResult) (fs : FS)
    (j : Job) : Job :=
  let fetched := after_calls calls (mark_starting j) in
  match result with
  | Raised msg => mark_error msg fetched
  | Returned info => resolved fs pl info (note_merge_ext pl fetched)
  end.


(** What follows the identifier in a share link: nothing, or a query. *)
Definition link_tail (q : option string) : string :=
  match q with
  | None => ""
  | Some q => String "?" q
  end.

(** A request that leaves every optional key out. *)
Definition no_rest : PayloadRest := mkPayloadRest None None None None None.

(** A directory that holds one entry, unrelated to any job, modified at [t]. *)
Definition stray_file (t : Z) : FS := disk_of [mkEntry "other.txt" t] [].

(** A store with two jobs submitted and not yet started. *)
Definition two_jobs : System :=
  snd (api_download some_payload "b" (seconds 101)
         (snd (api_download some_payload "a" (seconds 100) initial))).

(** * Theorems *)

(** ** Strings *)

Lemma remove_char_id (p : ascii -> bool) (s : string) :
  all_chars (fun c => negb (p c)) s = true -> remove_char p s = s.
Proof.
  induction s as [|c s IH]; simpl; [reflexivity|].
  intros H. apply andb_true_iff in H as [Hc Hs].
  destruct (p c); [discriminate|]. rewrite IH by exact Hs. reflexivity.
Qed.

Lemma partition_none (c : ascii) (s : string) :
  contains c s = false -> partition c s = None.
Proof.
  induction s as [|x s IH]; simpl; [reflexivity|].
  intros H. apply orb_false_iff in H as [Hx Hs].
  rewrite Hx, IH by exact Hs. reflexivity.
Qed.

Lemma split_none (c : ascii) (s : string) :
  contains c s = false -> split c s = [s].
Proof.
  induction s as [|x s IH]; simpl; [reflexivity|].
  intros H. apply orb_false_iff in H as [Hx Hs].
  rewrite IH by exact Hs. rewrite Hx. reflexivity.
Qed.

Lemma replace_char_id (a b : ascii) (s : string) :
  contains a s = false -> replace_char a b s = s.
Proof.
  induction s as [|x s IH]; simpl; [reflexivity|].
  intros H. apply orb_false_iff in H as [Hx Hs].
  rewrite Hx, IH by exact Hs. reflexivity.
Qed.

Lemma substring_all (s : string) : substring 0 (String.length s) s = s.
Proof. induction s as [|c s IH]; simpl; [reflexivity|]. rewrite IH. reflexivity. Qed.

Lemma all_chars_app (p : ascii -> bool) (a b : string) :
  all_chars p (a +:+ b) = all_chars p a && all_chars p b.
Proof.
  induction a as [|c a IH]; simpl; [reflexivity|]. rewrite IH. apply andb_assoc.
Qed.

Lemma contains_app (c : ascii) (a b : string) :
  contains c (a +:+ b) = contains c a || contains c b.
Proof.
  induction a as [|x a IH]; simpl; [reflexivity|]. rewrite IH. apply orb_assoc.
Qed.

Lemma append_assoc (a b c : string) : (a +:+ b) +:+ c = a +:+ (b +:+ c).
Proof.
  induction a as [|x a IH]; [reflexivity|].
  change ((String x a +:+ b) +:+ c) with (String x ((a +:+ b) +:+ c)).
  rewrite IH. reflexivity.
Qed.

(** ** The hooks, one record at a time *)

Lemma hook_lookup (job_id id : string) (d : ProgressEvent) (jobs : gmap string Job) :
  hook job_id d jobs !! id =
  if decide (id = job_id) then hook_update d <$> jobs !! job_id else jobs !! id.
Proof.
  unfold hook, hook_update.
  destruct (jobs !! job_id) as [job|] eqn:E.
  - case_decide as H.
    + subst id. rewrite lookup_insert_eq. reflexivity.
    + rewrite lookup_insert_ne by congruence. reflexivity.
  - case_decide as H; [subst id; rewrite E|]; reflexivity.
Qed.

Lemma pp_hook_lookup (job_id id : string) (d : PostprocessEvent) (jobs : gmap string Job) :
  pp_hook job_id d jobs !! id =
  if decide (id = job_id) then pp_hook_update d <$> jobs !! job_id else jobs !! id.
Proof.
  unfold pp_hook, pp_hook_update.
  destruct (is_status (pp_status d) "finished"); simpl.
  - destruct (truthy _).
    + destruct (jobs !! job_id) as [job|] eqn:E.
      * case_decide as H.
        -- subst id. rewrite lookup_insert_eq. reflexivity.
        -- rewrite lookup_insert_ne by congruence. reflexivity.
      * case_decide as H; [subst id; rewrite E|]; reflexivity.
    + case_decide as H; [subst id|]; try reflexivity.
      destruct (jobs !! job_id); reflexivity.
  - case_decide as H; [subst id|]; try reflexivity.
    destruct (jobs !! job_id); reflexivity.
Qed.

Lemma call_hook_lookup (job_id id : string) (c : HookCall) (jobs : gmap string Job) :
  call_hook job_id c jobs !! id =
  if decide (id = job_id) then call_update c <$> jobs !! job_id else jobs !! id.
Proof. destruct c; [apply hook_lookup | apply pp_hook_lookup]. Qed.

Lemma update_job_lookup (job_id id : string) (f : Job -> Job) (jobs jobs' : gmap string Job) :
  update_job job_id f jobs = Some jobs' ->
  jobs' !! id = if decide (id = job_id) then f <$> jobs !! job_id else jobs !! id.
Proof.
  unfold update_job. destruct (jobs !! job_id) as [job|] eqn:E; simpl; [|discriminate].
  intros [= <-]. case_decide as H.
  - subst id. rewrite lookup_insert_eq. reflexivity.
  - rewrite lookup_insert_ne by congruence. reflexivity.
Qed.

Lemma update_job_some (job_id : string) (f : Job -> Job) (jobs : gmap string Job) (job : Job) :
  jobs !! job_id = Some job -> update_job job_id f jobs = Some (<[job_id := f job]> jobs).
Proof. intros E. unfold update_job. rewrite E. reflexivity. Qed.

(** ** Rounding to two decimals *)







(** ** Progress values (C3) *)






(** ** The resource identifier (C9) *)

(** C9, as the specification states it, fails: the hook never looks at the
    stored identifier, and an event that carries another one replaces it. *)
Lemma hook_replaces_video_id :
  ~ (forall (job_id : string) (d : ProgressEvent) (jobs : gmap string Job) (job job' : Job),
        jobs !! job_id = Some job ->
        truthy (video_id job) = true ->
        hook job_id d jobs !! job_id = Some job' ->
        video_id job' = video_id job).
Proof.
  intros H.
  specialize (H "j" (id_event "second")
                {["j" := set_video_id (Some "first") (new_job "j" 0)]}
                (set_video_id (Some "first") (new_job "j" 0))
                (hook_update (id_event "second") (set_video_id (Some "first") (new_job "j" 0)))).
  assert (E : Some "second" = Some "first"); [|discriminate E].
  apply H.
  - apply lookup_singleton_eq.
  - reflexivity.
  - rewrite hook_lookup, decide_True by reflexivity.
    rewrite lookup_singleton_eq. reflexivity.
Qed.

(** C9, amended: a progress event that carries a non-empty identifier
    stores it, whether or not one was stored before; any other event leaves
    the stored identifier as it is. *)
Theorem hook_stores_video_id (job_id : string) (d : ProgressEvent)
    (jobs : gmap string Job) (job : Job) :
  jobs !! job_id = Some job ->
  exists job',
    hook job_id d jobs !! job_id = Some job'
    /\ video_id job' = if truthy (d_info_id d) then d_info_id d else video_id job.
Proof.
  intros Hj. exists (hook_update d job). split.
  - rewrite hook_lookup, decide_True by reflexivity. rewrite Hj. reflexivity.
  - unfold hook_update.
    destruct job, (truthy (d_info_id d)), (truthy (d_filename d)),
      (is_status (d_status d) "downloading"), (is_status (d_status d) "finished");
      reflexivity.
Qed.

Lemma hook_stores_video_id_witness :
  exists job',
    hook "j" (id_event "second") {["j" := set_video_id (Some "first") (new_job "j" 0)]} !! "j"
      = Some job'
    /\ video_id job' = Some "second".
Proof.
  apply (hook_stores_video_id "j" (id_event "second")
           {["j" := set_video_id (Some "first") (new_job "j" 0)]}
           (set_video_id (Some "first") (new_job "j" 0))).
  apply lookup_singleton_eq.
Defined.

(** ** The resolver returns paths that print as non-empty text *)

Lemma append_nonempty_l (a b : string) : a <> "" -> a +:+ b <> "".
Proof. destruct a; [contradiction|discriminate]. Qed.

Lemma append_nonempty_r (a b : string) : b <> "" -> a +:+ b <> "".
Proof. destruct a; simpl; [trivial|discriminate]. Qed.

Lemma str_path_solid (p : Path) : solid p -> str_path p <> "".
Proof.
  destruct p as [r ps]. unfold solid, str_path. simpl.
  intros [Hr|Hp].
  - destruct r; [contradiction|discriminate].
  - destruct r; [|discriminate].
    destruct ps as [|x [|y ps]]; [discriminate| |];
      (destruct x; [contradiction|discriminate]).
Qed.

Lemma py_Path_solid (s : string) : solid (py_Path s).
Proof.
  unfold py_Path. destruct (splitroot s) as [r rel]. right. simpl.
  unfold name_parts.
  destruct (List.filter _ (split "/" rel)) as [|x l] eqn:E; [exact I|].
  assert (Hin : In x (List.filter
                        (fun x => negb (String.eqb x "") && negb (String.eqb x "."))
                        (split "/" rel))) by (rewrite E; left; reflexivity).
  apply filter_In in Hin as [_ Hx]. apply andb_true_iff in Hx as [Hx _].
  destruct (String.eqb_spec x ""); [discriminate|assumption].
Qed.

Lemma child_solid (name : string) : solid (child DOWNLOAD_DIR name).
Proof. right. simpl. discriminate. Qed.

Lemma joinpath_solid (s : string) : solid (joinpath DOWNLOAD_DIR s).
Proof.
  unfold joinpath. destruct (String.eqb (root (py_Path s)) "").
  - right. simpl. discriminate.
  - apply py_Path_solid.
Qed.

Lemma with_suffix_solid (p p' : Path) (ext : string) :
  solid p -> with_suffix p ("." +:+ ext) = Ret p' -> solid p'.
Proof.
  intros Hs. unfold with_suffix.
  destruct (contains "/" _); [discriminate|].
  destruct (_ || _); [discriminate|].
  destruct (String.eqb_spec (path_name p) "") as [E|E]; [discriminate|].
  intros [= <-]. destruct Hs as [Hr|Hp]; [left; exact Hr|]. right. simpl.
  destruct p as [r [|x [|y ps]]]; simpl in *.
  - contradiction.
  - apply append_nonempty_r. discriminate.
  - exact Hp.
Qed.

Lemma hint_candidates_solid (hook_fn : option string) (selection audio_fmt merge : string)
    (batch : list Path) :
  hint_candidates hook_fn selection audio_fmt merge = Ret batch -> Forall solid batch.
Proof.
  unfold hint_candidates. destruct (truthy hook_fn); [|intros [= <-]; constructor].
  pose proof (py_Path_solid (str_or_empty hook_fn)) as Hb.
  set (base := py_Path (str_or_empty hook_fn)) in *.
  destruct (String.eqb selection "10").
  - destruct (with_suffix base ("." +:+ audio_fmt)) as [a|] eqn:Ea; [|discriminate].
    simpl. intros [= <-]. constructor; [exact Hb|]. constructor; [|constructor].
    apply (with_suffix_solid base a audio_fmt Hb Ea).
  - assert (Hm : forall m,
               (if negb (String.eqb merge "") && negb (String.eqb merge "auto")
                then x ← with_suffix base ("." +:+ merge); Ret [x]
                else Ret []) = Ret m -> Forall solid m).
    { intros m. destruct (_ && _); [|intros [= <-]; constructor].
      destruct (with_suffix base ("." +:+ merge)) as [x|] eqn:Ex; [|discriminate].
      simpl. intros [= <-]. constructor; [|constructor].
      apply (with_suffix_solid base x merge Hb Ex). }
    destruct (if negb (String.eqb merge "") && negb (String.eqb merge "auto")
              then x ← with_suffix base ("." +:+ merge); Ret [x]
              else Ret []) as [m|] eqn:Em; [|discriminate].
    simpl.
    destruct (with_suffix base ".mp4") as [mp4|] eqn:E4; [|discriminate]. simpl.
    destruct (with_suffix base ".mkv") as [mkv|] eqn:E5; [|discriminate]. simpl.
    intros [= <-]. constructor; [exact Hb|].
    apply Forall_app. split; [apply Hm; reflexivity|].
    constructor; [|constructor; [|constructor]].
    + apply (with_suffix_solid base mp4 "mp4" Hb E4).
    + apply (with_suffix_solid base mkv "mkv" Hb E5).
Qed.

Lemma title_candidates_solid (info : Info) (video_id : option string)
    (selection audio_fmt merge : string) :
  Forall solid (title_candidates info video_id selection audio_fmt merge).
Proof.
  unfold title_candidates. destruct (negb _); [|constructor].
  destruct (String.eqb selection "10").
  - constructor; [apply joinpath_solid|constructor].
  - apply Forall_flat_map. apply Forall_forall. intros ext _.
    destruct (negb _); constructor; [apply joinpath_solid|constructor].
Qed.

Lemma find_final_file_solid (fs : FS) (video_id : option string) (p : Path) :
  find_final_file fs video_id = Ret (Some p) -> solid p.
Proof.
  unfold find_final_file. destruct (negb (truthy video_id)); [discriminate|].
  destruct (glob fs _) as [[|e rest]|]; simpl; try discriminate.
  intros [= <-]. apply child_solid.
Qed.

Lemma resolve_final_file_solid (fs : FS) (info : Info) (job : Job)
    (selection audio_fmt merge : string) (p : Path) :
  resolve_final_file fs info job selection audio_fmt merge = Ret (Some p) -> solid p.
Proof.
  unfold resolve_final_file.
  destruct (find_final_file fs _) as [q|] eqn:Ef; [|discriminate]. simpl.
  destruct (from_option (exists_ fs) false q).
  - intros [= ->]. apply (find_final_file_solid _ _ _ Ef).
  - destruct (hint_candidates _ selection audio_fmt merge) as [batch|] eqn:Eh; [|discriminate].
    simpl.
    destruct (List.find (exists_ fs) _) as [c|] eqn:Ec.
    + intros [= <-]. apply find_some in Ec as [Hin _].
      apply in_app_or in Hin as [Hin|Hin].
      * pose proof (hint_candidates_solid _ _ _ _ _ Eh) as Hall.
        rewrite List.Forall_forall in Hall. apply Hall, Hin.
      * pose proof (title_candidates_solid info (py_or (video_id job) (info_id info))
                      selection audio_fmt merge) as Hall.
        rewrite List.Forall_forall in Hall. apply Hall, Hin.
    + unfold newest_since. destruct (List.filter _ _); [discriminate|].
      intros [= <-]. apply child_solid.
Qed.

(** ** The invariant of the running system *)

Lemma hook_update_frame (d : ProgressEvent) (j : Job) :
  ready (hook_update d j) = ready j
  /\ file (hook_update d j) = file j
  /\ error (hook_update d j) = error j
  /\ state (hook_update d j) =
       (if is_status (d_status d) "downloading" then downloading
        else if is_status (d_status d) "finished" then processing
        else state j).
Proof.
  unfold hook_update.
  destruct j, (truthy (d_info_id d)), (truthy (d_filename d)),
    (is_status (d_status d) "downloading"), (is_status (d_status d) "finished");
    repeat split; reflexivity.
Qed.

Lemma pp_hook_update_frame (d : PostprocessEvent) (j : Job) :
  ready (pp_hook_update d j) = ready j
  /\ file (pp_hook_update d j) = file j
  /\ error (pp_hook_update d j) = error j
  /\ state (pp_hook_update d j) = state j.
Proof.
  unfold pp_hook_update.
  destruct j, (is_status (pp_status d) "finished" && truthy _); repeat split; reflexivity.
Qed.

Lemma call_update_in_flight (c : HookCall) (j : Job) :
  in_flight j /\ pending j -> in_flight (call_update c j) /\ pending (call_update c j).
Proof.
  intros [Hs (Hr & Hf & He)]. unfold in_flight, pending.
  destruct c as [d|d]; simpl.
  - destruct (hook_update_frame d j) as (-> & -> & -> & ->).
    repeat split; try assumption.
    destruct (is_status (d_status d) "downloading"); [tauto|].
    destruct (is_status (d_status d) "finished"); tauto.
  - destruct (pp_hook_update_frame d j) as (-> & -> & -> & ->).
    repeat split; assumption.
Qed.

Lemma mark_finished_settled (final_path : option Path) (j : Job) :
  (forall p, final_path = Some p -> solid p) -> settled (mark_finished final_path j).
Proof.
  intros Hs. destruct final_path as [p|]; destruct j; unfold settled; simpl.
  - left. repeat split; try reflexivity. eexists; split; [reflexivity|].
    apply str_path_solid, Hs. reflexivity.
  - right; left. repeat split; reflexivity.
Qed.

Lemma mark_error_settled (msg : string) (j : Job) :
  pending j -> settled (mark_error msg j).
Proof.
  intros (Hr & Hf & He). destruct j; simpl in *; subst.
  right; right. repeat split; try reflexivity. eexists; reflexivity.
Qed.

(** The thread of [job_id] rewrites its own record and moves on. *)
Lemma invariant_thread_step (s : System) (job_id : string) (t' : Thread) (j' : Job)
    (jobs' : gmap string Job) :
  invariant s ->
  (forall id, jobs' !! id = if decide (id = job_id) then Some j' else jobs s !! id) ->
  job_ok (Some t') (Some j') ->
  invariant (mkSystem jobs' (<[job_id := t']> (threads s))).
Proof.
  intros Hinv Hjobs Hok id. simpl. rewrite Hjobs.
  case_decide as E.
  - subst id. rewrite lookup_insert_eq. exact Hok.
  - rewrite lookup_insert_ne by congruence. apply Hinv.
Qed.

Lemma insert_lookup_decide (jobs : gmap string Job) (job_id id : string) (j : Job) :
  <[job_id := j]> jobs !! id = if decide (id = job_id) then Some j else jobs !! id.
Proof.
  case_decide as E.
  - subst. apply lookup_insert_eq.
  - apply lookup_insert_ne. congruence.
Qed.

Lemma api_status_reads (job_id : string) (jobs : gmap string Job) :
  snd (api_status job_id jobs) = jobs.
Proof. unfold api_status. destruct (jobs !! job_id); reflexivity. Qed.

Lemma api_file_reads (job_id : string) (method : Method) (fs : FS) (jobs : gmap string Job) :
  snd (api_file job_id method fs jobs) = jobs.
Proof.
  unfold api_file. destruct (jobs !! job_id) as [job|]; [|reflexivity].
  destruct (negb (ready job) || negb (truthy (file job))); [reflexivity|].
  destruct (negb (exists_ fs _)); [reflexivity|].
  destruct method; reflexivity.
Qed.

(** What a thread in phase [phase t] finds under its identifier. *)
Lemma invariant_thread (s : System) (job_id : string) (t : Thread) :
  invariant s -> threads s !! job_id = Some t ->
  exists j, jobs s !! job_id = Some j /\ job_ok (Some t) (Some j).
Proof.
  intros Hinv Ht. specialize (Hinv job_id). rewrite Ht in Hinv.
  destruct (jobs s !! job_id) as [j|]; [|contradiction].
  exists j. split; [reflexivity|exact Hinv].
Qed.

Lemma do_action_invariant (a : Action) (s s' : System) :
  invariant s -> do_action a s = Some s' -> invariant s'.
Proof.
  intros Hinv Hdo. destruct a as [data new_id now|job_id|job_id c|job_id msg|job_id info
                                  |job_id fs|job_id|job_id method fs]; simpl in Hdo.
  - (* Submit *)
    destruct (jobs s !! new_id) eqn:Ej; [discriminate|].
    destruct (threads s !! new_id) eqn:Et; [discriminate|].
    injection Hdo as <-. unfold api_download.
    destruct (String.eqb _ ""); [exact Hinv|]. simpl.
    apply (invariant_thread_step s new_id _ (new_job new_id now)); [exact Hinv| |].
    + intros id. apply insert_lookup_decide.
    + simpl. unfold pending. repeat split; reflexivity.
  - (* Start *)
    destruct (threads s !! job_id) as [t|] eqn:Et; [|discriminate]. simpl in Hdo.
    destruct (phase t) eqn:Ep; try discriminate. injection Hdo as <-.
    destruct (invariant_thread s job_id t Hinv Et) as (j & Ej & Hok).
    simpl in Hok. rewrite Ep in Hok. destruct Hok as [Hq Hp].
    rewrite (update_job_some _ _ _ _ Ej). simpl.
    apply (invariant_thread_step s job_id _ (mark_starting j)); [exact Hinv| |].
    + intros id. apply insert_lookup_decide.
    + simpl. destruct Hp as (Hr & Hf & He). destruct j; simpl in *; subst.
      unfold in_flight, pending; simpl. tauto.
  - (* Call *)
    destruct (threads s !! job_id) as [t|] eqn:Et; [|discriminate]. simpl in Hdo.
    destruct (phase t) eqn:Ep; try discriminate. injection Hdo as <-.
    destruct (invariant_thread s job_id t Hinv Et) as (j & Ej & Hok).
    simpl in Hok. rewrite Ep in Hok. simpl.
    apply (invariant_thread_step s job_id _ (call_update c j)); [exact Hinv| |].
    + intros id. rewrite call_hook_lookup, Ej. reflexivity.
    + simpl. apply call_update_in_flight, Hok.
  - (* FetchRaised *)
    destruct (threads s !! job_id) as [t|] eqn:Et; [|discriminate]. simpl in Hdo.
    destruct (phase t) eqn:Ep; try discriminate. injection Hdo as <-.
    destruct (invariant_thread s job_id t Hinv Et) as (j & Ej & Hok).
    simpl in Hok. rewrite Ep in Hok. destruct Hok as [_ Hp].
    rewrite (update_job_some _ _ _ _ Ej). simpl.
    apply (invariant_thread_step s job_id _ (mark_error msg j)); [exact Hinv| |].
    + intros id. apply insert_lookup_decide.
    + simpl. apply mark_error_settled, Hp.
  - (* FetchReturned *)
    destruct (threads s !! job_id) as [t|] eqn:Et; [|discriminate]. simpl in Hdo.
    destruct (phase t) eqn:Ep; try discriminate. injection Hdo as <-.
    destruct (invariant_thread s job_id t Hinv Et) as (j & Ej & Hok).
    simpl in Hok. rewrite Ep in Hok.
    rewrite (update_job_some _ _ _ _ Ej). simpl.
    apply (invariant_thread_step s job_id _ (note_merge_ext (payload t) j)); [exact Hinv| |].
    + intros id. apply insert_lookup_decide.
    + simpl. destruct Hok as [Hs (Hr & Hf & He)].
      destruct j; simpl in *; subst. unfold in_flight, pending; simpl. tauto.
  - (* Finalize *)
    destruct (threads s !! job_id) as [t|] eqn:Et; [|discriminate]. simpl in Hdo.
    destruct (phase t) eqn:Ep; try discriminate. injection Hdo as <-.
    destruct (invariant_thread s job_id t Hinv Et) as (j & Ej & Hok).
    simpl in Hok. rewrite Ep in Hok. destruct Hok as [_ Hp].
    unfold finalize. rewrite Ej. simpl.
    destruct (resolve_final_file _ _ _ _ _ _) as [final_path|msg] eqn:Er;
      rewrite (update_job_some _ _ _ _ Ej); simpl.
    + apply (invariant_thread_step s job_id _ (mark_finished final_path j));
        [exact Hinv|intros id; apply insert_lookup_decide|].
      simpl. apply mark_finished_settled. intros p ->.
      apply (resolve_final_file_solid _ _ _ _ _ _ _ Er).
    + apply (invariant_thread_step s job_id _ (mark_error msg j));
        [exact Hinv|intros id; apply insert_lookup_decide|].
      simpl. apply mark_error_settled, Hp.
  - injection Hdo as <-. rewrite api_status_reads. destruct s; exact Hinv.
  - injection Hdo as <-. rewrite api_file_reads. destruct s; exact Hinv.
Qed.

Lemma run_invariant (actions : list Action) (s s' : System) :
  invariant s -> run actions s = Some s' -> invariant s'.
Proof.
  revert s. induction actions as [|a actions IH]; intros s Hinv Hrun; simpl in Hrun.
  - injection Hrun as <-. exact Hinv.
  - destruct (do_action a s) as [s1|] eqn:E; [|discriminate]. simpl in Hrun.
    apply (IH s1); [|exact Hrun]. apply (do_action_invariant a s); assumption.
Qed.

Lemma reachable_invariant (s : System) : reachable s -> invariant s.
Proof.
  intros [actions Hrun]. apply (run_invariant actions initial); [|exact Hrun].
  intros id. simpl. rewrite !lookup_empty. exact I.
Qed.

(** ** What one step does to one record *)

Lemma do_action_writes (a : Action) (s s' : System) (id : string) (j : Job) :
  invariant s -> do_action a s = Some s' -> jobs s !! id = Some j ->
  exists j', jobs s' !! id = Some j'
    /\ (j' = j \/ exists t, threads s !! id = Some t /\ writes id t j a j').
Proof.
  intros Hinv Hdo Hj.
  assert (Hsame : forall jobs' : gmap string Job, (forall i, jobs' !! i = jobs s !! i) ->
            exists j', jobs' !! id = Some j'
              /\ (j' = j \/ exists t, threads s !! id = Some t /\ writes id t j a j')).
  { intros jobs' E. exists j. rewrite E. tauto. }
  assert (Hone : forall job_id t j0 j1 (jobs' : gmap string Job),
            threads s !! job_id = Some t -> jobs s !! job_id = Some j0 ->
            (forall i, jobs' !! i = if decide (i = job_id) then Some j1 else jobs s !! i) ->
            writes job_id t j0 a j1 ->
            exists j', jobs' !! id = Some j'
              /\ (j' = j \/ exists t, threads s !! id = Some t /\ writes id t j a j')).
  { intros job_id t j0 j1 jobs' Et Ej E Hw. rewrite E. case_decide as D.
    - subst job_id. rewrite Hj in Ej. injection Ej as <-.
      exists j1. split; [reflexivity|]. right. exists t. tauto.
    - exists j. tauto. }
  destruct a as [data new_id now|job_id|job_id c|job_id msg|job_id info
                 |job_id fs|job_id|job_id method fs]; simpl in Hdo.
  - destruct (jobs s !! new_id) eqn:Ej; [discriminate|].
    destruct (threads s !! new_id) eqn:Et; [discriminate|].
    injection Hdo as <-. unfold api_download.
    destruct (String.eqb _ ""); [apply Hsame; reflexivity|]. simpl.
    exists j. split; [|tauto].
    rewrite lookup_insert_ne; [exact Hj|]. intros ->. congruence.
  - destruct (threads s !! job_id) as [t|] eqn:Et; [|discriminate]. simpl in Hdo.
    destruct (phase t) eqn:Ep; try discriminate. injection Hdo as <-.
    destruct (invariant_thread s job_id t Hinv Et) as (j0 & Ej & _).
    rewrite (update_job_some _ _ _ _ Ej). simpl.
    apply (Hone job_id t j0 (mark_starting j0)); try assumption.
    + intros i. apply insert_lookup_decide.
    + constructor; assumption.
  - destruct (threads s !! job_id) as [t|] eqn:Et; [|discriminate]. simpl in Hdo.
    destruct (phase t) eqn:Ep; try discriminate. injection Hdo as <-.
    destruct (invariant_thread s job_id t Hinv Et) as (j0 & Ej & _). simpl.
    apply (Hone job_id t j0 (call_update c j0)); try assumption.
    + intros i. rewrite call_hook_lookup, Ej. reflexivity.
    + constructor; assumption.
  - destruct (threads s !! job_id) as [t|] eqn:Et; [|discriminate]. simpl in Hdo.
    destruct (phase t) eqn:Ep; try discriminate. injection Hdo as <-.
    destruct (invariant_thread s job_id t Hinv Et) as (j0 & Ej & _).
    rewrite (update_job_some _ _ _ _ Ej). simpl.
    apply (Hone job_id t j0 (mark_error msg j0)); try assumption.
    + intros i. apply insert_lookup_decide.
    + constructor; assumption.
  - destruct (threads s !! job_id) as [t|] eqn:Et; [|discriminate]. simpl in Hdo.
    destruct (phase t) eqn:Ep; try discriminate. injection Hdo as <-.
    destruct (invariant_thread s job_id t Hinv Et) as (j0 & Ej & _).
    rewrite (update_job_some _ _ _ _ Ej). simpl.
    apply (Hone job_id t j0 (note_merge_ext (payload t) j0)); try assumption.
    + intros i. apply insert_lookup_decide.
    + constructor; assumption.
  - destruct (threads s !! job_id) as [t|] eqn:Et; [|discriminate]. simpl in Hdo.
    destruct (phase t) eqn:Ep; try discriminate. injection Hdo as <-.
    destruct (invariant_thread s job_id t Hinv Et) as (j0 & Ej & _).
    unfold finalize. rewrite Ej. simpl.
    destruct (resolve_final_file _ _ _ _ _ _) as [final_path|msg];
      rewrite (update_job_some _ _ _ _ Ej); simpl.
    + apply (Hone job_id t j0 (mark_finished final_path j0)); try assumption.
      * intros i. apply insert_lookup_decide.
      * econstructor; eassumption.
    + apply (Hone job_id t j0 (mark_error msg j0)); try assumption.
      * intros i. apply insert_lookup_decide.
      * econstructor; eassumption.
  - injection Hdo as <-. apply Hsame. intros i. simpl. rewrite api_status_reads. reflexivity.
  - injection Hdo as <-. apply Hsame. intros i. simpl. rewrite api_file_reads. reflexivity.
Qed.

Lemma run_found_reachable : reachable run_found.
Proof. exists found_actions. vm_compute. reflexivity. Qed.

Lemma run_not_found_reachable : reachable run_not_found.
Proof. exists not_found_actions. vm_compute. reflexivity. Qed.

Lemma run_processing_reachable : reachable run_processing.
Proof. exists processing_actions. vm_compute. reflexivity. Qed.

Lemma reachable_job (s : System) (id : string) (j : Job) :
  reachable s -> jobs s !! id = Some j ->
  exists t, threads s !! id = Some t /\ job_ok (Some t) (Some j).
Proof.
  intros Hr Hj. pose proof (reachable_invariant s Hr id) as H. rewrite Hj in H.
  destruct (threads s !! id) as [t|]; [|contradiction].
  exists t. split; [reflexivity|exact H].
Qed.

Lemma pending_no_error (j : Job) : pending j -> truthy (error j) = false.
Proof. intros (_ & _ & ->). reflexivity. Qed.

Lemma in_flight_rank (j : Job) : in_flight j -> state_rank (state j) <= 3.
Proof. intros [->|[->| ->]]; simpl; lia. Qed.

(** ** State transitions (C4) *)

(** C4, as the specification states it, fails: the hook sets the state
    from the event alone, so a downloading event that follows a finished
    one (a second stream, say) takes the record from processing back to
    downloading. *)
Lemma state_can_regress :
  ~ (forall (s s' : System) (a : Action) (id : string) (j j' : Job),
        reachable s -> do_action a s = Some s' ->
        jobs s !! id = Some j -> jobs s' !! id = Some j' ->
        state_rank (state j) <= state_rank (state j')).
Proof.
  intros H.
  specialize (H run_processing
                (default initial
                   (do_action (Call "j" (Progress (downloading_event 10 100))) run_processing))
                (Call "j" (Progress (downloading_event 10 100))) "j"
                processing_job (hook_update (downloading_event 10 100) processing_job)
                run_processing_reachable).
  assert (E : state_rank processing <= state_rank downloading); [|vm_compute in E; auto].
  apply H; vm_compute; reflexivity.
Qed.

(** C4, amended: every step leaves a record where it is or moves it forward
    along queued, starting, downloading, processing, finished or error,
    except that a progress event with status downloading that arrives while
    the record is in processing sets it back to downloading. *)
Theorem state_moves_forward (s s' : System) (a : Action) (id : string) (j : Job) :
  reachable s -> do_action a s = Some s' -> jobs s !! id = Some j ->
  exists j', jobs s' !! id = Some j'
    /\ (state_rank (state j) <= state_rank (state j')
        \/ (state j = processing /\ state j' = downloading
            /\ exists d, a = Call id (Progress d)
                 /\ is_status (d_status d) "downloading" = true)).
Proof.
  intros Hr Hdo Hj.
  destruct (do_action_writes a s s' id j (reachable_invariant s Hr) Hdo Hj)
    as (j' & Hj' & Hcase).
  exists j'. split; [exact Hj'|].
  destruct Hcase as [->|(t & Ht & Hw)]; [left; lia|].
  destruct (reachable_job s id j Hr Hj) as (t0 & Ht0 & Hok).
  rewrite Ht in Ht0. injection Ht0 as <-. simpl in Hok.
  destruct Hw as [Ep|c Ep|msg Ep|info Ep|info fs final_path Ep|info fs msg Ep];
    rewrite Ep in Hok; destruct Hok as [Hs Hp].
  - left. rewrite Hs. destruct j; simpl. lia.
  - destruct c as [d|d]; simpl.
    + destruct (hook_update_frame d j) as (_ & _ & _ & ->).
      pose proof (in_flight_rank j Hs) as Hrank.
      destruct (is_status (d_status d) "downloading") eqn:Ed.
      * destruct Hs as [Hs|[Hs|Hs]]; rewrite Hs; simpl; [left; lia|left; lia|].
        right. repeat split. exists d. tauto.
      * left. destruct (is_status (d_status d) "finished"); simpl; lia.
    + destruct (pp_hook_update_frame d j) as (_ & _ & _ & ->). left. lia.
  - left. pose proof (in_flight_rank j Hs). destruct j; simpl in *. lia.
  - left. destruct j; simpl. lia.
  - left. pose proof (in_flight_rank j Hs). destruct j; simpl in *. lia.
  - left. pose proof (in_flight_rank j Hs). destruct j; simpl in *. lia.
Qed.

Lemma state_moves_forward_witness :
  exists j', jobs (default initial (do_action (Call "j" (Progress finished_event))
                      (default initial (run [Submit some_payload "j" (seconds 100); Start "j"]
                                          initial)))) !! "j" = Some j'
    /\ (state_rank (state (mark_starting (new_job "j" (seconds 100)))) <= state_rank (state j')
        \/ (state (mark_starting (new_job "j" (seconds 100))) = processing
            /\ state j' = downloading
            /\ exists d, Call "j" (Progress finished_event) = Call "j" (Progress d)
                 /\ is_status (d_status d) "downloading" = true)).
Proof.
  apply (state_moves_forward
           (default initial (run [Submit some_payload "j" (seconds 100); Start "j"] initial))
           _ (Call "j" (Progress finished_event)) "j"
           (mark_starting (new_job "j" (seconds 100)))).
  - exists [Submit some_payload "j" (seconds 100); Start "j"]. vm_compute. reflexivity.
  - vm_compute. reflexivity.
  - vm_compute. reflexivity.
Defined.

(** ** The error field (C5) *)

(** C5, as the specification states it, fails: when the fetcher returns and
    no artifact is found, the runner stores an error text in a record that it
    moves to finished, not to error. *)
Lemma error_is_set_in_finished_state :
  ~ (forall (s : System) (id : string) (j : Job),
        reachable s -> jobs s !! id = Some j ->
        truthy (error j) = true -> state j = failed).
Proof.
  intros H.
  specialize (H run_not_found "j" not_found_job run_not_found_reachable).
  assert (E : state not_found_job = failed); [|vm_compute in E; discriminate E].
  apply H; vm_compute; reflexivity.
Qed.

(** C5, amended: a record holds a non-empty error only once its runner has
    finalized it, either in state error, or in state finished with
    [ready = false] and the fixed text of a resolution failure; and from
    then on no step changes the record, so the error is never cleared. *)
Theorem error_set_at_finalization (s : System) (id : string) (j : Job) :
  reachable s -> jobs s !! id = Some j -> truthy (error j) = true ->
  (state j = failed
   \/ (state j = finished /\ ready j = false
       /\ error j = Some "File not found after download"))
  /\ forall (a : Action) (s' : System),
       do_action a s = Some s' -> jobs s' !! id = Some j.
Proof.
  intros Hr Hj He.
  destruct (reachable_job s id j Hr Hj) as (t & Ht & Hok). simpl in Hok.
  assert (Hdone : phase t = Done).
  { destruct (phase t); try reflexivity; destruct Hok as [_ Hp];
      rewrite (pending_no_error j Hp) in He; discriminate. }
  rewrite Hdone in Hok. split.
  - destruct Hok as [(_ & _ & _ & E)|[(Hs & Hrd & _ & E)|(Hs & _)]].
    + rewrite E in He. discriminate.
    + right. tauto.
    + left. exact Hs.
  - intros a s' Hdo.
    destruct (do_action_writes a s s' id j (reachable_invariant s Hr) Hdo Hj)
      as (j' & Hj' & [->|(t' & Ht' & Hw)]); [exact Hj'|].
    rewrite Ht in Ht'. injection Ht' as <-.
    destruct Hw; congruence.
Qed.

Lemma error_set_at_finalization_witness :
  (state not_found_job = failed
   \/ (state not_found_job = finished /\ ready not_found_job = false
       /\ error not_found_job = Some "File not found after download"))
  /\ forall (a : Action) (s' : System),
       do_action a run_not_found = Some s' -> jobs s' !! "j" = Some not_found_job.
Proof.
  apply (error_set_at_finalization run_not_found "j" not_found_job run_not_found_reachable).
  - vm_compute. reflexivity.
  - vm_compute. reflexivity.
Defined.

(** ** What a reader can observe (C6) *)

(** C6: the writes of one job are critical sections under [jobs_lock], so a
    reader sees the store between two of them.  In every store the system
    can reach, no record is ready without a file, and none holds a
    non-empty error while ready; the same holds of the view [api_status]
    serves. *)
Theorem snapshots_consistent (s : System) (id : string) (j : Job) :
  reachable s -> jobs s !! id = Some j ->
  (ready j = true -> file j <> None)
  /\ (truthy (error j) = true -> ready j = false)
  /\ (forall v, fst (api_status id (jobs s)) = StatusOk v ->
        truthy (view_error v) = true -> view_ready v = false).
Proof.
  intros Hr Hj.
  destruct (reachable_job s id j Hr Hj) as (t & Ht & Hok). simpl in Hok.
  assert (H : (ready j = true -> file j <> None)
              /\ (truthy (error j) = true -> ready j = false)).
  { destruct (phase t).
    - destruct Hok as [_ (R & F & E)]. rewrite R, E. split; [discriminate|reflexivity].
    - destruct Hok as [_ (R & F & E)]. rewrite R, E. split; [discriminate|reflexivity].
    - destruct Hok as [_ (R & F & E)]. rewrite R, E. split; [discriminate|reflexivity].
    - destruct Hok as [(_ & R & (p & F & _) & E)|[(_ & R & F & E)|(_ & R & F & E)]].
      + rewrite F, E. split; [discriminate|discriminate].
      + rewrite R. split; [discriminate|reflexivity].
      + rewrite R. split; [discriminate|reflexivity]. }
  destruct H as [H1 H2]. repeat split; try assumption.
  intros v Hv. unfold api_status in Hv. rewrite Hj in Hv. simpl in Hv.
  injection Hv as <-. simpl. exact H2.
Qed.

Lemma snapshots_consistent_witness :
  (ready found_job = true -> file found_job <> None)
  /\ (truthy (error found_job) = true -> ready found_job = false)
  /\ (forall v, fst (api_status "j" (jobs run_found)) = StatusOk v ->
        truthy (view_error v) = true -> view_ready v = false).
Proof.
  apply (snapshots_consistent run_found "j" found_job run_found_reachable).
  vm_compute. reflexivity.
Defined.

Example found_job_is_ready :
  ready found_job = true /\ file found_job = Some "downloads/x [a].mp4".
Proof. vm_compute. split; reflexivity. Qed.

(** ** Artifact retrieval (C8) *)

Lemma api_file_cases (job_id : string) (method : Method) (fs : FS)
    (jobs : gmap string Job) :
  (jobs !! job_id = None ->
   fst (api_file job_id method fs jobs) = NotFound "job not found")
  /\ (forall job, jobs !! job_id = Some job -> ready job = false ->
      fst (api_file job_id method fs jobs) = Conflict "file not ready")
  /\ (forall job p, jobs !! job_id = Some job -> ready job = true ->
      file job = Some p -> p <> "" -> exists_ fs (py_Path p) = false ->
      fst (api_file job_id method fs jobs) = Gone "file missing").
Proof.
  unfold api_file. repeat split.
  - intros ->. reflexivity.
  - intros job -> ->. reflexivity.
  - intros job p -> -> Hf Hp He. rewrite Hf. simpl.
    destruct (String.eqb_spec p ""); [contradiction|]. simpl.
    rewrite He. reflexivity.
Qed.

(** C8: in every store the system can reach, [api_file] answers not found
    for an unknown identifier, conflict for a record that is not ready yet,
    and gone for a ready record whose resolved path is no longer on disk;
    and it never writes to the store. *)
Theorem api_file_signals (s : System) (job_id : string) (method : Method) (fs : FS) :
  reachable s ->
  snd (api_file job_id method fs (jobs s)) = jobs s
  /\ (jobs s !! job_id = None ->
      fst (api_file job_id method fs (jobs s)) = NotFound "job not found")
  /\ (forall job, jobs s !! job_id = Some job -> ready job = false ->
      fst (api_file job_id method fs (jobs s)) = Conflict "file not ready")
  /\ (forall job, jobs s !! job_id = Some job -> ready job = true ->
      exists p, file job = Some p
        /\ (exists_ fs (py_Path p) = false ->
            fst (api_file job_id method fs (jobs s)) = Gone "file missing")).
Proof.
  intros Hr. split; [apply api_file_reads|].
  destruct (api_file_cases job_id method fs (jobs s)) as (H1 & H2 & H3).
  repeat split; try assumption.
  intros job Hj Hready.
  destruct (reachable_job s job_id job Hr Hj) as (t & _ & Hok). simpl in Hok.
  assert (Hs : settled job).
  { destruct (phase t); try exact Hok; destruct Hok as [_ (R & _)]; congruence. }
  destruct Hs as [(_ & _ & (p & F & Hp) & _)|[(_ & R & _)|(_ & R & _)]]; try congruence.
  exists p. split; [exact F|]. intros He. apply (H3 job p); assumption.
Qed.

Lemma api_file_signals_witness :
  snd (api_file "j" GET empty_disk (jobs run_found)) = jobs run_found
  /\ (jobs run_found !! "j" = None ->
      fst (api_file "j" GET empty_disk (jobs run_found)) = NotFound "job not found")
  /\ (forall job, jobs run_found !! "j" = Some job -> ready job = false ->
      fst (api_file "j" GET empty_disk (jobs run_found)) = Conflict "file not ready")
  /\ (forall job, jobs run_found !! "j" = Some job -> ready job = true ->
      exists p, file job = Some p
        /\ (exists_ empty_disk (py_Path p) = false ->
            fst (api_file "j" GET empty_disk (jobs run_found)) = Gone "file missing")).
Proof. exact (api_file_signals run_found "j" GET empty_disk run_found_reachable). Defined.

Example api_file_answers :
  fst (api_file "j" GET empty_disk (jobs run_found)) = Gone "file missing"
  /\ fst (api_file "j" GET (disk_with "x [a].mp4") (jobs run_found))
     = FileOk "downloads/x [a].mp4"
  /\ fst (api_file "j" HEAD empty_disk (jobs run_processing)) = Conflict "file not ready"
  /\ fst (api_file "k" GET empty_disk (jobs run_found)) = NotFound "job not found".
Proof. vm_compute. repeat split; reflexivity. Qed.

(** ** The identifier-pattern scan (C1) *)

Lemma until_bracket_app (l rest : list ascii) :
  existsb (fun c => Ascii.eqb c "]") l = false ->
  until_bracket (l ++ "]"%char :: rest) = Some l.
Proof.
  induction l as [|c l IH]; cbn [until_bracket existsb app].
  - intros _. rewrite Ascii.eqb_refl. reflexivity.
  - intros H. apply orb_false_iff in H as [Hc Hl].
    rewrite Hc, IH by exact Hl. reflexivity.
Qed.

Lemma word_not_special (c : ascii) :
  is_word c = true ->
  Ascii.eqb c "]" = false /\ Ascii.eqb c "-" = false /\ Ascii.eqb c "!" = false
  /\ Ascii.eqb c "/" = false /\ Ascii.eqb c "*" = false /\ Ascii.eqb c "." = false.
Proof.
  destruct c as [[] [] [] [] [] [] [] []]; vm_compute; intros H;
    try discriminate H; repeat split; reflexivity.
Qed.

Lemma in_range_same (x c : ascii) : in_range x x c = Ascii.eqb x c.
Proof.
  unfold in_range, code.
  destruct (Ascii.eqb_spec x c) as [->|Hne].
  - rewrite N.leb_refl. reflexivity.
  - apply andb_false_iff.
    destruct (N.leb_spec (N_of_ascii x) (N_of_ascii c)); [|left; reflexivity].
    destruct (N.leb_spec (N_of_ascii c) (N_of_ascii x)); [|right; reflexivity].
    exfalso. apply Hne.
    rewrite <- (ascii_N_embedding x), <- (ascii_N_embedding c). f_equal. lia.
Qed.

Lemma words_free_of (p : ascii -> bool) (l : list ascii) :
  (forall c, is_word c = true -> p c = false) ->
  forallb is_word l = true -> existsb p l = false.
Proof.
  intros Hp. induction l as [|c l IH]; cbn [forallb existsb]; [reflexivity|].
  intros H. apply andb_true_iff in H as [Hc Hl].
  rewrite (Hp c Hc), IH by exact Hl. reflexivity.
Qed.

Lemma parse_set_literals (l : list ascii) : parse_set (map ALit l) = singles l.
Proof.
  induction l as [|c l IH]; [reflexivity|].
  unfold singles; cbn [map parse_set]. destruct l as [|d l]; [reflexivity|].
  cbn [map]. unfold singles in IH. cbn [map] in IH. rewrite IH. reflexivity.
Qed.

Lemma class_item_words (l : list ascii) :
  l <> [] -> forallb is_word l = true -> class_item l = GClass false (singles l).
Proof.
  intros Hne Hw. unfold class_item, split_class.
  rewrite (words_free_of (Ascii.eqb "-") l); [|intros c Hc|exact Hw].
  2:{ rewrite Ascii.eqb_sym. apply (word_not_special c Hc). }
  cbn [atoms_of]. destruct l as [|c l]; [contradiction|].
  cbn [forallb] in Hw. apply andb_true_iff in Hw as [Hc _].
  rewrite <- parse_set_literals. cbn [map].
  destruct (word_not_special c Hc) as (_ & _ & Hb & _).
  destruct c as [[] [] [] [] [] [] [] []]; try reflexivity; discriminate Hb.
Qed.

Lemma translate_from_skip (l rest : list ascii) (k : nat) :
  translate_from (length l + k) (l ++ rest) = translate_from k rest.
Proof.
  induction l as [|c l IH]; [reflexivity|]. cbn [length app Nat.add translate_from]. exact IH.
Qed.

Lemma class_body_words (l rest : list ascii) :
  l <> [] -> forallb is_word l = true ->
  class_body (l ++ "]"%char :: rest) = Some l.
Proof.
  intros Hne Hw. unfold class_body.
  destruct l as [|c l]; [contradiction|].
  pose proof Hw as Hw'. cbn [forallb] in Hw'. apply andb_true_iff in Hw' as [Hc _].
  destruct (word_not_special c Hc) as (H1 & _ & H2 & _).
  assert (E : until_bracket ((c :: l) ++ "]"%char :: rest) = Some (c :: l)).
  { apply until_bracket_app. apply words_free_of; [|exact Hw].
    intros x Hx. apply (word_not_special x Hx). }
  cbn [app] in *.
  destruct c as [[] [] [] [] [] [] [] []]; try discriminate H1; try discriminate H2;
    cbv beta iota; rewrite E; reflexivity.
Qed.

Lemma list_ascii_app (a b : string) :
  list_ascii_of_string (a +:+ b) = list_ascii_of_string a ++ list_ascii_of_string b.
Proof.
  induction a as [|c a IH]; [reflexivity|].
  change (String c a +:+ b) with (String c (a +:+ b)).
  cbn [list_ascii_of_string app]. rewrite IH. reflexivity.
Qed.

Lemma all_chars_forallb (p : ascii -> bool) (s : string) :
  all_chars p s = forallb p (list_ascii_of_string s).
Proof.
  induction s as [|c s IH]; [reflexivity|].
  cbn [all_chars list_ascii_of_string forallb]. rewrite IH. reflexivity.
Qed.

Lemma translate_bracketed_words (vid : string) :
  vid <> "" -> all_chars is_word vid = true ->
  translate ("*[" +:+ vid +:+ "].*")
  = [GStar; GClass false (singles (list_ascii_of_string vid)); GLit "."; GStar].
Proof.
  intros Hne Hw. unfold translate.
  rewrite all_chars_forallb in Hw.
  assert (Hl : list_ascii_of_string vid <> []) by (destruct vid; [contradiction|discriminate]).
  change ("*[" +:+ vid +:+ "].*") with (String "*" (String "[" (vid +:+ "].*"))).
  cbn [list_ascii_of_string]. rewrite list_ascii_app.
  change (list_ascii_of_string "].*") with ["]"%char; "."%char; "*"%char].
  set (l := list_ascii_of_string vid) in *.
  cbn [translate_from]. change (Ascii.eqb "*" "*") with true. cbv iota.
  change (Ascii.eqb "[" "*") with false. change (Ascii.eqb "[" "?") with false.
  change (Ascii.eqb "[" "[") with true. cbv iota.
  rewrite (class_body_words l _ Hl Hw), (class_item_words l Hl Hw).
  replace (S (length l)) with (length (l ++ ["]"%char]) + 0)%nat
    by (rewrite length_app; simpl; lia).
  replace (l ++ ["]"%char; "."%char; "*"%char]) with ((l ++ ["]"%char]) ++ ["."%char; "*"%char])
    by (rewrite <- app_assoc; reflexivity).
  rewrite translate_from_skip. reflexivity.
Qed.

Lemma match_star (n : list ascii) : match_items [GStar] n = true.
Proof.
  induction n as [|c n IH]; [reflexivity|].
  change (match_items [GStar] (c :: n)) with (match_items [] (c :: n) || match_items [GStar] n).
  rewrite IH. apply orb_true_r.
Qed.

Lemma contains_singles (l : list ascii) (c : ascii) :
  existsb (fun r => in_range (fst r) (snd r) c) (singles l)
  = contains c (string_of_list_ascii l).
Proof.
  induction l as [|x l IH]; [reflexivity|].
  cbn [singles map existsb string_of_list_ascii contains fst snd].
  fold (singles l). rewrite IH, in_range_same. reflexivity.
Qed.

Lemma match_set_before_dot (l : list ascii) (name : string) :
  match_items [GStar; GClass false (singles l); GLit "."; GStar] (list_ascii_of_string name)
  = char_before_dot (string_of_list_ascii l) name.
Proof.
  induction name as [|c name IH]; [reflexivity|].
  cbn [list_ascii_of_string char_before_dot].
  change (match_items [GStar; GClass false (singles l); GLit "."; GStar]
            (c :: list_ascii_of_string name))
    with (match_items [GClass false (singles l); GLit "."; GStar]
            (c :: list_ascii_of_string name)
          || match_items [GStar; GClass false (singles l); GLit "."; GStar]
               (list_ascii_of_string name)).
  rewrite IH. f_equal.
  cbn [match_items item_accepts xorb]. rewrite contains_singles.
  destruct name as [|d name]; cbn [list_ascii_of_string startswith].
  - rewrite andb_false_r. reflexivity.
  - change (match_items [GLit "."; GStar] (d :: list_ascii_of_string name))
      with (Ascii.eqb "." d && match_items [GStar] (list_ascii_of_string name)).
    rewrite match_star, andb_true_r.
    change (startswith "." (String d name)) with (Ascii.eqb "." d && true).
    rewrite ?andb_true_r. apply andb_comm.
Qed.

Lemma no_double_star (vid : string) :
  all_chars is_word vid = true -> infix "**" ("*[" +:+ vid +:+ "].*") = false.
Proof.
  intros Hw.
  change ("*[" +:+ vid +:+ "].*") with (String "*" (String "[" (vid +:+ "].*"))).
  cbn [infix startswith]. change (Ascii.eqb "*" "*") with true.
  change (Ascii.eqb "*" "[") with false. cbn [andb orb].
  induction vid as [|c vid IH]; [reflexivity|].
  change (String c vid +:+ "].*") with (String c (vid +:+ "].*")).
  cbn [all_chars] in Hw. apply andb_true_iff in Hw as [Hc Hv].
  cbn [infix startswith]. rewrite (IH Hv).
  destruct (word_not_special c Hc) as (_ & _ & _ & _ & Hs & _).
  rewrite Ascii.eqb_sym, Hs. reflexivity.
Qed.

Lemma string_of_list_of_string (s : string) :
  string_of_list_ascii (list_ascii_of_string s) = s.
Proof. induction s as [|c s IH]; [reflexivity|]. cbn. rewrite IH. reflexivity. Qed.

Lemma words_no_slash (vid : string) :
  all_chars is_word vid = true -> contains "/" ("*[" +:+ vid +:+ "].*") = false.
Proof.
  intros Hw. rewrite !contains_app.
  replace (contains "/" vid) with false; [reflexivity|].
  symmetry. induction vid as [|c vid IH]; [reflexivity|].
  cbn [all_chars] in Hw. apply andb_true_iff in Hw as [Hc Hv].
  cbn [contains]. rewrite (IH Hv).
  destruct (word_not_special c Hc) as (_ & _ & _ & Hs & _). rewrite Hs. reflexivity.
Qed.

Lemma startswith_dot_none (x : string) : contains "." x = false -> startswith "." x = false.
Proof.
  destruct x as [|d x]; [reflexivity|]. cbn [contains startswith].
  intros H. apply orb_false_iff in H as [Hd _]. rewrite Ascii.eqb_sym, Hd. reflexivity.
Qed.

Lemma char_before_dot_none (set x : string) :
  contains "." x = false -> char_before_dot set x = false.
Proof.
  induction x as [|c x IH]; [reflexivity|]. cbn [contains char_before_dot].
  intros H. apply orb_false_iff in H as [_ Hx].
  rewrite (startswith_dot_none x Hx), (IH Hx). reflexivity.
Qed.

Lemma char_before_dot_last (set s ext : string) (last : ascii) :
  contains "." s = false -> Ascii.eqb last "." = false ->
  contains last set = false -> contains "." ext = false ->
  char_before_dot set (s +:+ String last ("." +:+ ext)) = false.
Proof.
  intros Hs Hl Hset Hext. induction s as [|c s IH].
  - change ("" +:+ String last ("." +:+ ext)) with (String last (String "." ext)).
    cbn [char_before_dot]. rewrite Hset, andb_false_r.
    rewrite (startswith_dot_none ext Hext), (char_before_dot_none set ext Hext). reflexivity.
  - change (String c s +:+ String last ("." +:+ ext))
      with (String c (s +:+ String last ("." +:+ ext))).
    cbn [contains] in Hs. apply orb_false_iff in Hs as [_ Hs].
    cbn [char_before_dot]. rewrite (IH Hs), orb_false_r.
    replace (startswith "." (s +:+ String last ("." +:+ ext))) with false; [reflexivity|].
    symmetry. destruct s as [|d s].
    + change ("" +:+ String last ("." +:+ ext)) with (String last (String "." ext)).
      cbn [startswith]. rewrite Ascii.eqb_sym, Hl. reflexivity.
    + change (String d s +:+ String last ("." +:+ ext))
        with (String d (s +:+ String last ("." +:+ ext))).
      cbn [contains] in Hs. apply orb_false_iff in Hs as [Hd _].
      cbn [startswith]. rewrite Ascii.eqb_sym, Hd. reflexivity.
Qed.

Lemma words_free_of_char (c : ascii) (vid : string) :
  is_word c = false -> all_chars is_word vid = true -> contains c vid = false.
Proof.
  intros Hc. induction vid as [|x vid IH]; [reflexivity|].
  cbn [all_chars contains]. intros H. apply andb_true_iff in H as [Hx Hv].
  rewrite (IH Hv). destruct (Ascii.eqb_spec x c); [subst; congruence|reflexivity].
Qed.

Lemma bracketed_name_not_selected (vid title ext : string) :
  all_chars is_word vid = true ->
  contains "." title = false -> contains "." ext = false ->
  char_before_dot vid (title +:+ " [" +:+ vid +:+ "]." +:+ ext) = false.
Proof.
  intros Hw Ht He.
  replace (title +:+ " [" +:+ vid +:+ "]." +:+ ext)
    with ((title +:+ " [" +:+ vid) +:+ String "]" ("." +:+ ext)).
  - apply char_before_dot_last; try assumption; try reflexivity.
    + rewrite !contains_app, Ht, (words_free_of_char "." vid eq_refl Hw). reflexivity.
    + apply (words_free_of_char "]" vid eq_refl Hw).
  - rewrite !append_assoc. reflexivity.
Qed.

Lemma fnmatch_bracketed_words (vid name : string) :
  vid <> "" -> all_chars is_word vid = true ->
  fnmatch ("*[" +:+ vid +:+ "].*") name = char_before_dot vid name.
Proof.
  intros Hne Hw. unfold fnmatch.
  rewrite (translate_bracketed_words vid Hne Hw), match_set_before_dot.
  rewrite string_of_list_of_string. reflexivity.
Qed.

(** What the scan selects, for an identifier made of letters, digits and
    underscores: the entries in whose name one character of the identifier
    stands right before a dot; and never a name of the form the output
    template gives, [title [id].ext]. *)
Theorem glob_reads_id_as_set (fs : FS) (vid : string) :
  vid <> "" -> all_chars is_word vid = true ->
  glob fs ("*[" +:+ vid +:+ "].*")
  = Ret (List.filter (fun e => char_before_dot vid (entry_name e)) (listing fs))
  /\ forall title ext,
       contains "." title = false -> contains "." ext = false ->
       fnmatch ("*[" +:+ vid +:+ "].*") (title +:+ " [" +:+ vid +:+ "]." +:+ ext) = false.
Proof.
  intros Hne Hw. split.
  - unfold glob, name_parts.
    rewrite (split_none "/" _ (words_no_slash vid Hw)).
    cbn [List.filter].
    change (String.eqb ("*[" +:+ vid +:+ "].*") "") with false.
    change (String.eqb ("*[" +:+ vid +:+ "].*") ".") with false.
    cbn [negb andb existsb]. rewrite (no_double_star vid Hw). cbn [andb orb].
    f_equal. apply filter_ext. intros e. apply (fnmatch_bracketed_words vid _ Hne Hw).
  - intros title ext Ht He. rewrite (fnmatch_bracketed_words vid _ Hne Hw).
    apply bracketed_name_not_selected; assumption.
Qed.

Lemma glob_reads_id_as_set_witness :
  glob three_files ("*[" +:+ "abc123" +:+ "].*")
  = Ret (List.filter (fun e => char_before_dot "abc123" (entry_name e)) (listing three_files))
  /\ forall title ext,
       contains "." title = false -> contains "." ext = false ->
       fnmatch ("*[" +:+ "abc123" +:+ "].*") (title +:+ " [" +:+ "abc123" +:+ "]." +:+ ext)
       = false.
Proof.
  apply (glob_reads_id_as_set three_files "abc123").
  - discriminate.
  - reflexivity.
Defined.

(** C1: the brackets of the pattern are not escaped, so [glob] reads
    [[abc123]] as a set of characters.  The artifact [Title [abc123].mp4] is
    not selected, while every name in which one of the characters
    [a b c 1 2 3] stands before a dot is; alone in the directory the
    artifact is not found at all, and among other files the newest of those
    is returned in its place. *)
Theorem find_final_file_reads_brackets_as_set :
  fnmatch "*[abc123].*" "Title [abc123].mp4" = false
  /\ fnmatch "*[abc123].*" "a.txt" = true
  /\ find_final_file (disk_with "Title [abc123].mp4") (Some "abc123") = Ret None
  /\ find_final_file three_files (Some "abc123") = Ret (Some (child DOWNLOAD_DIR "b.part")).
Proof. vm_compute. repeat split; reflexivity. Qed.

(** ** The order of the cascade (C2) *)




Example hinted_job_hint_is_on_disk :
  pp_filename hinted_job = Some "downloads/Title [abc123].webm"
  /\ exists_ three_files (py_Path "downloads/Title [abc123].webm") = true
  /\ resolve_final_file three_files no_info hinted_job "4" "m4a" "mp4"
     = Ret (Some (child DOWNLOAD_DIR "b.part")).
Proof. vm_compute. repeat split; reflexivity. Qed.

(** ** Hint-derived candidates (C7) *)






Example postprocess_hint_variant_found :
  resolve_final_file (disk_of [] ["downloads/a.mp4"]) no_info two_hints_job "4" "m4a" "mp4"
  = Ret (Some (py_Path "downloads/a.mp4")).
Proof. vm_compute. reflexivity. Qed.

(** ** URL normalization (C10) *)

Lemma plain_contains (c : ascii) (s : string) :
  is_plain c = false -> all_chars is_plain s = true -> contains c s = false.
Proof.
  intros Hc. induction s as [|x s IH]; simpl; [reflexivity|].
  intros H. apply andb_true_iff in H as [Hx Hs]. rewrite IH by exact Hs.
  destruct (Ascii.eqb_spec x c); [subst; congruence|reflexivity].
Qed.

Lemma plain_no_tab_cr_lf (s : string) :
  all_chars is_plain s = true -> all_chars (fun c => negb (is_tab_cr_lf c)) s = true.
Proof.
  induction s as [|x s IH]; simpl; [reflexivity|].
  intros H. apply andb_true_iff in H as [Hx Hs]. rewrite IH by exact Hs.
  unfold is_plain in Hx. rewrite !negb_orb in Hx.
  repeat (apply andb_true_iff in Hx as [Hx ?]). rewrite andb_true_r. assumption.
Qed.

Lemma parse_qs_single_v (vid : string) :
  vid <> "" -> all_chars is_plain vid = true ->
  parse_qs ("v=" +:+ vid) !! "v" = Some [vid].
Proof.
  intros Hne Hp. unfold parse_qs, parse_qsl.
  assert (E1 : String.eqb ("v=" +:+ vid) "" = false) by reflexivity.
  rewrite E1, split_none.
  - assert (E2 : partition "=" ("v=" +:+ vid) = Some ("v", vid)) by reflexivity.
    cbn [flat_map]. rewrite E2.
    destruct (String.eqb_spec vid ""); [contradiction|]. cbn [negb app].
    rewrite (replace_char_id "+" " " vid (plain_contains "+" vid eq_refl Hp)).
    unfold unquote at 2. rewrite (plain_contains "%" vid eq_refl Hp).
    cbn [fold_left fst snd].
    change (unquote (replace_char "+" " " "v")) with "v".
    rewrite lookup_empty. apply lookup_insert_eq.
  - rewrite contains_app, (plain_contains "&" vid eq_refl Hp). reflexivity.
Qed.

Section NormalizeFacts.

Variable bracketed_netloc_ok : string -> bool.
Variable nfkc_netloc_ok : string -> bool.

#[local] Abbreviation normalize := (normalize_youtube_url bracketed_netloc_ok nfkc_netloc_ok).

Lemma urlsplit_watch_url (vid : string) :
  all_chars is_plain vid = true ->
  urlsplit bracketed_netloc_ok nfkc_netloc_ok (watch_url vid)
  = Some (mkParseResult "https" "www.youtube.com" "/watch" "" ("v=" +:+ vid) "").
Proof.
  intros Hp. unfold urlsplit, watch_url.
  assert (E1 : lstrip is_c0_or_space ("https://www.youtube.com/watch?v=" +:+ vid)
               = "https://www.youtube.com/watch?v=" +:+ vid) by reflexivity.
  assert (E2 : remove_char is_tab_cr_lf ("https://www.youtube.com/watch?v=" +:+ vid)
               = "https://www.youtube.com/watch?v=" +:+ vid).
  { apply remove_char_id. rewrite all_chars_app, (plain_no_tab_cr_lf vid Hp). reflexivity. }
  rewrite E1, E2.
  assert (E3 : partition ":" ("https://www.youtube.com/watch?v=" +:+ vid)
               = Some ("https", "//www.youtube.com/watch?v=" +:+ vid)) by reflexivity.
  rewrite E3.
  assert (E4 : is_ascii "h" && is_alpha "h" && all_chars is_scheme_char "https" = true)
    by reflexivity.
  rewrite E4.
  assert (E5 : startswith "//" ("//www.youtube.com/watch?v=" +:+ vid) = true) by reflexivity.
  assert (E6 : substring 2 (String.length ("//www.youtube.com/watch?v=" +:+ vid) - 2)
                 ("//www.youtube.com/watch?v=" +:+ vid)
               = "www.youtube.com/watch?v=" +:+ vid).
  { change (substring 0 (String.length ("www.youtube.com/watch?v=" +:+ vid) - 0)
              ("www.youtube.com/watch?v=" +:+ vid) = "www.youtube.com/watch?v=" +:+ vid).
    rewrite Nat.sub_0_r. apply substring_all. }
  assert (E7 : break_at is_netloc_end ("www.youtube.com/watch?v=" +:+ vid)
               = ("www.youtube.com", "/watch?v=" +:+ vid)) by reflexivity.
  assert (E8 : split_once "#" ("/watch?v=" +:+ vid) = ("/watch?v=" +:+ vid, "")).
  { unfold split_once. rewrite partition_none; [reflexivity|].
    rewrite contains_app, (plain_contains "#" vid eq_refl Hp). reflexivity. }
  assert (E9 : split_once "?" ("/watch?v=" +:+ vid) = ("/watch", "v=" +:+ vid)) by reflexivity.
  cbv zeta. cbv beta iota. rewrite E5, E6, E7. cbv beta iota. rewrite E8. cbv beta iota.
  rewrite E9. reflexivity.
Qed.

Lemma normalize_watch_url (vid : string) :
  all_chars is_plain vid = true -> normalize (watch_url vid) = watch_url vid.
Proof.
  intros Hp. destruct (String.eqb_spec vid "") as [->|Hne]; [vm_compute; reflexivity|].
  unfold normalize_youtube_url, urlparse.
  rewrite (urlsplit_watch_url vid Hp). simpl.
  rewrite (parse_qs_single_v vid Hne Hp). reflexivity.
Qed.

(** The function returns its argument or a watch URL. *)
Lemma normalize_cases (u : string) :
  normalize u = u \/ exists vid, normalize u = watch_url vid.
Proof.
  unfold normalize_youtube_url.
  destruct (urlparse _ _ u) as [p|]; [|left; reflexivity].
  destruct (negb (String.eqb _ "")); [right; eexists; reflexivity|].
  destruct (infix "youtube.com" (lower (netloc p))); [|left; reflexivity].
  destruct (negb (String.eqb _ "")); [right; eexists; reflexivity|].
  destruct (startswith "/watch" (path p)); [|left; reflexivity].
  destruct (parse_qs (query p) !! "v") as [[|v vs]|]; try (left; reflexivity).
  right. eexists; reflexivity.
Qed.

Lemma normalize_idempotent_when_plain (u : string) :
  all_chars is_plain (normalize u) = true -> normalize (normalize u) = normalize u.
Proof.
  destruct (normalize_cases u) as [E|[vid E]]; rewrite E; [intros _; exact E|].
  intros Hp. apply normalize_watch_url.
  unfold watch_url in Hp. rewrite all_chars_app in Hp.
  apply andb_true_iff in Hp. apply Hp.
Qed.

Lemma normalize_other_host (u : string) (p : ParseResult) :
  urlparse bracketed_netloc_ok nfkc_netloc_ok u = Some p ->
  infix "youtu.be" (lower (netloc p)) = false ->
  infix "youtube.com" (lower (netloc p)) = false ->
  normalize u = u.
Proof.
  intros Hp H1 H2. unfold normalize_youtube_url. rewrite Hp, H1, H2. reflexivity.
Qed.

Lemma normalize_unparsable (u : string) :
  urlparse bracketed_netloc_ok nfkc_netloc_ok u = None -> normalize u = u.
Proof. intros Hp. unfold normalize_youtube_url. rewrite Hp. reflexivity. Qed.

End NormalizeFacts.

(** C10, as stated, fails on two counts.  Normalization is not idempotent:
    the identifier of a watch URL is decoded by [parse_qs] and put back as
    it is, so [a+b] becomes [a b] on the second pass.  And the host test is
    a substring test: [notyoutube.com], which is no youtube.com host, is
    rewritten. *)
Lemma normalize_not_idempotent :
  (forall bracketed_netloc_ok nfkc_netloc_ok : string -> bool,
     normalize_youtube_url bracketed_netloc_ok nfkc_netloc_ok "https://youtu.be/a+b"
       = "https://www.youtube.com/watch?v=a+b"
     /\ normalize_youtube_url bracketed_netloc_ok nfkc_netloc_ok
          "https://www.youtube.com/watch?v=a+b"
       = "https://www.youtube.com/watch?v=a b")
  /\ ~ (forall (bracketed_netloc_ok nfkc_netloc_ok : string -> bool) (u : string),
          normalize_youtube_url bracketed_netloc_ok nfkc_netloc_ok
            (normalize_youtube_url bracketed_netloc_ok nfkc_netloc_ok u)
          = normalize_youtube_url bracketed_netloc_ok nfkc_netloc_ok u)
  /\ (forall bracketed_netloc_ok nfkc_netloc_ok : string -> bool,
        normalize_youtube_url bracketed_netloc_ok nfkc_netloc_ok
          "https://notyoutube.com/watch?v=x"
        = "https://www.youtube.com/watch?v=x").
Proof.
  split; [|split].
  - intros b n. split; vm_compute; reflexivity.
  - intros H.
    specialize (H (fun _ => true) (fun _ => true) "https://youtu.be/a+b").
    vm_compute in H. discriminate H.
  - intros b n. vm_compute. reflexivity.
Qed.

(** C10, amended: normalization is total, a URL that [urlparse] refuses
    coming back as it is; a URL whose netloc, in lower case, contains
    neither [youtu.be] nor [youtube.com] comes back as it is; and
    normalizing twice gives what normalizing once gives whenever the first
    result holds none of the characters [% + & #], tab, carriage return and
    line feed (as is the case for the identifiers YouTube issues). *)
Theorem normalize_total_and_idempotent_on_plain
    (bracketed_netloc_ok nfkc_netloc_ok : string -> bool) (u : string) :
  (urlparse bracketed_netloc_ok nfkc_netloc_ok u = None ->
   normalize_youtube_url bracketed_netloc_ok nfkc_netloc_ok u = u)
  /\ (forall p,
        urlparse bracketed_netloc_ok nfkc_netloc_ok u = Some p ->
        infix "youtu.be" (lower (netloc p)) = false ->
        infix "youtube.com" (lower (netloc p)) = false ->
        normalize_youtube_url bracketed_netloc_ok nfkc_netloc_ok u = u)
  /\ (all_chars is_plain (normalize_youtube_url bracketed_netloc_ok nfkc_netloc_ok u) = true ->
      normalize_youtube_url bracketed_netloc_ok nfkc_netloc_ok
        (normalize_youtube_url bracketed_netloc_ok nfkc_netloc_ok u)
      = normalize_youtube_url bracketed_netloc_ok nfkc_netloc_ok u).
Proof.
  split; [|split].
  - apply normalize_unparsable.
  - intros p. apply normalize_other_host.
  - apply normalize_idempotent_when_plain.
Qed.

Lemma normalize_total_and_idempotent_on_plain_witness :
  normalize_youtube_url (fun _ => true) (fun _ => true)
    (normalize_youtube_url (fun _ => true) (fun _ => true)
       "https://www.youtube.com/shorts/dQw4w9WgXcQ?feature=share")
  = normalize_youtube_url (fun _ => true) (fun _ => true)
      "https://www.youtube.com/shorts/dQw4w9WgXcQ?feature=share".
Proof.
  apply (normalize_total_and_idempotent_on_plain (fun _ => true) (fun _ => true)
           "https://www.youtube.com/shorts/dQw4w9WgXcQ?feature=share").
  vm_compute. reflexivity.
Defined.

Example normalize_examples :
  normalize_youtube_url (fun _ => true) (fun _ => true) "https://youtu.be/abc123"
    = "https://www.youtube.com/watch?v=abc123"
  /\ normalize_youtube_url (fun _ => true) (fun _ => true)
       "https://www.youtube.com/shorts/dQw4w9WgXcQ?feature=share"
     = "https://www.youtube.com/watch?v=dQw4w9WgXcQ"
  /\ normalize_youtube_url (fun _ => true) (fun _ => true)
       "https://www.youtube.com/watch?v=abc&list=PL1&t=3"
     = "https://www.youtube.com/watch?v=abc"
  /\ normalize_youtube_url (fun _ => true) (fun _ => true) "https://example.org/watch?v=abc"
     = "https://example.org/watch?v=abc"
  /\ normalize_youtube_url (fun _ => true) (fun _ => true) "http://[::1"
     = "http://[::1".
Proof. vm_compute. repeat split; reflexivity. Qed.

(** * Further properties of the code *)

(** ** What no step takes away *)

Lemma keeps_refl (j : Job) : keeps j j.
Proof. unfold keeps. tauto. Qed.

Lemma keeps_trans (j1 j2 j3 : Job) : keeps j1 j2 -> keeps j2 j3 -> keeps j1 j3.
Proof.
  unfold keeps. intros (A1 & A2 & A3 & A4 & A5) (B1 & B2 & B3 & B4 & B5).
  repeat split; try congruence; auto.
Qed.

Lemma hook_update_keeps (d : ProgressEvent) (j : Job) : keeps j (hook_update d j).
Proof.
  unfold keeps, hook_update.
  destruct (truthy (d_info_id d)) eqn:E1; destruct (truthy (d_filename d)) eqn:E2;
    destruct (is_status (d_status d) "downloading");
    try destruct (is_status (d_status d) "finished"); simpl; tauto.
Qed.

Lemma pp_hook_update_keeps (d : PostprocessEvent) (j : Job) : keeps j (pp_hook_update d j).
Proof.
  unfold keeps, pp_hook_update.
  destruct (is_status (pp_status d) "finished"); simpl; [|tauto].
  destruct (truthy _) eqn:E; simpl; tauto.
Qed.

Lemma call_update_keeps (c : HookCall) (j : Job) : keeps j (call_update c j).
Proof. destruct c; [apply hook_update_keeps | apply pp_hook_update_keeps]. Qed.

(** ** The hooks and the other records *)

(** Both callbacks tolerate a missing record, leave every other record as
    it is, and neither add nor remove a job; in the record they update
    they never touch the outcome ([ready], [file], [error]), and they
    keep its identifier, its creation time and the hints that are set. *)
Theorem callbacks_touch_one_record (job_id : string) (c : HookCall) (jobs : gmap string Job) :
  (jobs !! job_id = None -> call_hook job_id c jobs = jobs)
  /\ (forall id, id <> job_id -> call_hook job_id c jobs !! id = jobs !! id)
  /\ dom (call_hook job_id c jobs) = dom jobs
  /\ (forall j, jobs !! job_id = Some j ->
        exists j', call_hook job_id c jobs !! job_id = Some j'
                   /\ ready j' = ready j /\ file j' = file j /\ error j' = error j
                   /\ keeps j j').
Proof.
  split; [|split; [|split]].
  - intros Hnone. apply map_eq. intros id. rewrite call_hook_lookup.
    case_decide as E; [|reflexivity]. subst id. rewrite Hnone. reflexivity.
  - intros id Hne. rewrite call_hook_lookup, decide_False by exact Hne. reflexivity.
  - apply set_eq. intros id. rewrite !elem_of_dom, call_hook_lookup.
    case_decide as E; [|reflexivity]. subst id.
    destruct (jobs !! job_id); simpl; split; intros [x Hx]; try discriminate; eexists; reflexivity.
  - intros j Hj. exists (call_update c j).
    rewrite call_hook_lookup. rewrite decide_True by reflexivity. rewrite Hj.
    split; [reflexivity|].
    assert (H : ready (call_update c j) = ready j /\ file (call_update c j) = file j
                /\ error (call_update c j) = error j).
    { destruct c as [d|d]; simpl.
      - destruct (hook_update_frame d j) as (-> & -> & -> & _). repeat split.
      - destruct (pp_hook_update_frame d j) as (-> & -> & -> & _). repeat split. }
    destruct H as (-> & -> & ->).
    split; [reflexivity|]. split; [reflexivity|]. split; [reflexivity|].
    apply call_update_keeps.
Qed.

Lemma writes_keeps (id : string) (t : Thread) (j : Job) (a : Action) (j' : Job) :
  writes id t j a j' -> keeps j j'.
Proof.
  intros [H|c H|msg H|info H|info fs fp H|info fs msg H].
  - unfold keeps; simpl; tauto.
  - apply call_update_keeps.
  - unfold keeps; simpl; tauto.
  - unfold keeps; simpl; tauto.
  - unfold keeps; simpl; tauto.
  - unfold keeps; simpl; tauto.
Qed.

(** ** One run of the job runner *)

Lemma with_job_self (s : System) (id : string) (pl : Payload) (ph : Phase) (j : Job) :
  threads s !! id = Some (mkThread pl ph) -> jobs s !! id = Some j ->
  with_job s id pl ph j = s.
Proof.
  intros Ht Hj. destruct s as [J T]. unfold with_job. simpl in *.
  rewrite (insert_id J id j Hj), (insert_id T id _ Ht). reflexivity.
Qed.

Lemma call_hook_insert (id : string) (c : HookCall) (j : Job) (J : gmap string Job) :
  call_hook id c (<[id := j]> J) = <[id := call_update c j]> J.
Proof.
  apply map_eq. intros i. rewrite call_hook_lookup, !insert_lookup_decide.
  case_decide; [|reflexivity]. rewrite decide_True by reflexivity. reflexivity.
Qed.

Lemma update_job_insert (id : string) (f : Job -> Job) (j : Job) (J : gmap string Job) :
  update_job id f (<[id := j]> J) = Some (<[id := f j]> J).
Proof.
  unfold update_job. rewrite lookup_insert_eq. simpl. rewrite insert_insert_eq. reflexivity.
Qed.

Lemma do_start (s : System) (id : string) (pl : Payload) (j : Job) :
  do_action (Start id) (with_job s id pl Spawned j)
  = Some (with_job s id pl Fetching (mark_starting j)).
Proof.
  unfold with_job. cbn [do_action threads jobs]. rewrite lookup_insert_eq. cbn.
  rewrite update_job_insert. cbn. rewrite insert_insert_eq. reflexivity.
Qed.

Lemma do_call (s : System) (id : string) (pl : Payload) (j : Job) (c : HookCall) :
  do_action (Call id c) (with_job s id pl Fetching j)
  = Some (with_job s id pl Fetching (call_update c j)).
Proof.
  unfold with_job. cbn [do_action threads jobs]. rewrite lookup_insert_eq. cbn.
  rewrite call_hook_insert, insert_insert_eq. reflexivity.
Qed.

Lemma run_cons_some (a : Action) (l : list Action) (s s1 : System) :
  do_action a s = Some s1 -> run (a :: l) s = run l s1.
Proof. intros E. simpl. rewrite E. reflexivity. Qed.

Lemma do_calls (s : System) (id : string) (pl : Payload) (calls : list HookCall) (j : Job)
    (rest : list Action) :
  run (map (Call id) calls ++ rest) (with_job s id pl Fetching j)
  = run rest (with_job s id pl Fetching (after_calls calls j)).
Proof.
  revert j. induction calls as [|c calls IH]; intros j; [reflexivity|].
  cbn [map app]. rewrite (run_cons_some _ _ _ _ (do_call s id pl j c)). apply IH.
Qed.

Lemma do_raised (s : System) (id : string) (pl : Payload) (j : Job) (msg : string) :
  do_action (FetchRaised id msg) (with_job s id pl Fetching j)
  = Some (with_job s id pl Done (mark_error msg j)).
Proof.
  unfold with_job. cbn [do_action threads jobs]. rewrite lookup_insert_eq. cbn.
  rewrite update_job_insert. cbn. rewrite insert_insert_eq. reflexivity.
Qed.

Lemma do_returned (s : System) (id : string) (pl : Payload) (j : Job) (info : Info) :
  do_action (FetchReturned id info) (with_job s id pl Fetching j)
  = Some (with_job s id pl (Resolving info) (note_merge_ext pl j)).
Proof.
  unfold with_job. cbn [do_action threads jobs]. rewrite lookup_insert_eq. cbn.
  rewrite update_job_insert. cbn. rewrite insert_insert_eq. reflexivity.
Qed.

Lemma do_finalize (s : System) (id : string) (pl : Payload) (j : Job) (info : Info) (fs : FS) :
  do_action (Finalize id fs) (with_job s id pl (Resolving info) j)
  = Some (with_job s id pl Done (resolved fs pl info j)).
Proof.
  unfold with_job, resolved. cbn [do_action threads jobs]. rewrite lookup_insert_eq. cbn.
  unfold finalize. rewrite lookup_insert_eq. cbn.
  destruct (resolve_final_file _ _ _ _ _ _); rewrite update_job_insert; cbn;
    rewrite insert_insert_eq; reflexivity.
Qed.

Lemma run_download_with_job (s : System) (id : string) (pl : Payload) (j : Job)
    (calls : list HookCall) (result : FetchResult) (fs : FS) :
  run_download id calls result fs (with_job s id pl Spawned j)
  = Some (with_job s id pl Done (outcome_of pl calls result fs j)).
Proof.
  unfold run_download, thread_actions, outcome_of.
  rewrite (run_cons_some _ _ _ _ (do_start s id pl j)), do_calls.
  destruct result as [info|msg].
  - rewrite (run_cons_some _ _ _ _ (do_returned s id pl _ info)).
    rewrite (run_cons_some _ _ _ _ (do_finalize s id pl _ info fs)). reflexivity.
  - rewrite (run_cons_some _ _ _ _ (do_raised s id pl _ msg)). reflexivity.
Qed.



(** ** Requests and reachable stores *)

Lemma run_app (l1 l2 : list Action) (s : System) :
  run (l1 ++ l2) s = run l1 s ≫= run l2.
Proof.
  revert s. induction l1 as [|a l1 IH]; intros s; [reflexivity|].
  simpl. destruct (do_action a s) as [s1|]; simpl; [apply IH|reflexivity].
Qed.

Lemma reachable_run (actions : list Action) (s s' : System) :
  reachable s -> run actions s = Some s' -> reachable s'.
Proof.
  intros [l Hl] Hrun. exists (l ++ actions). rewrite run_app, Hl. exact Hrun.
Qed.

Lemma run_keeps (actions : list Action) (s s' : System) (id : string) (j : Job) :
  invariant s -> run actions s = Some s' -> jobs s !! id = Some j ->
  exists j', jobs s' !! id = Some j' /\ keeps j j'.
Proof.
  revert s j.
  induction actions as [|a actions IH]; intros s j Hinv Hrun Hj; simpl in Hrun.
  - injection Hrun as <-. exists j. split; [exact Hj|apply keeps_refl].
  - destruct (do_action a s) as [s1|] eqn:E; [|discriminate]. simpl in Hrun.
    destruct (do_action_writes a s s1 id j Hinv E Hj) as (j1 & Hj1 & Hw).
    destruct (IH s1 j1 (do_action_invariant a s s1 Hinv E) Hrun Hj1) as (j' & Hj' & Hk).
    exists j'. split; [exact Hj'|]. apply (keeps_trans j j1 j'); [|exact Hk].
    destruct Hw as [->|(t & _ & Hw)]; [apply keeps_refl|apply (writes_keeps _ _ _ _ _ Hw)].
Qed.

(** Across any steps from a reachable store, a job's record is never
    removed, its identifier and creation time never change, and a video
    id, an observed filename or a postprocess hint that is set stays set
    (it may be replaced, never cleared). *)
Theorem records_and_hints_persist (actions : list Action) (s s' : System) (id : string)
    (j : Job) :
  reachable s -> run actions s = Some s' -> jobs s !! id = Some j ->
  exists j', jobs s' !! id = Some j' /\ keeps j j'.
Proof. intros Hr. apply run_keeps, reachable_invariant, Hr. Qed.

Lemma records_and_hints_persist_witness :
  exists j', jobs run_not_found !! "j" = Some j' /\ keeps (new_job "j" (seconds 100)) j'.
Proof.
  apply (records_and_hints_persist (thread_actions "j" [Progress finished_event]
                                      (Returned no_info) empty_disk)
           (snd (api_download some_payload "j" (seconds 100) initial)) run_not_found "j").
  - exists [Submit some_payload "j" (seconds 100)]. vm_compute. reflexivity.
  - vm_compute. reflexivity.
  - vm_compute. reflexivity.
Defined.


(** Once a request is accepted, the status endpoint answers for its job
    with that identifier after any further steps: no step removes a
    record or renames it. *)
Theorem accepted_job_stays_visible (data : Payload) (new_id : string) (now : Z)
    (s s1 s2 : System) (actions : list Action) :
  reachable s ->
  strip is_space (str_or_empty (p_url data)) <> "" ->
  do_action (Submit data new_id now) s = Some s1 ->
  run actions s1 = Some s2 ->
  exists view, fst (api_status new_id (jobs s2)) = StatusOk view /\ view_id view = new_id.
Proof.
  intros Hr Hurl Hdo Hrun.
  assert (Hr1 : reachable s1).
  { apply (reachable_run [Submit data new_id now] s); [exact Hr|]. exact (run_cons_some _ [] _ _ Hdo). }
  assert (Hj : jobs s1 !! new_id = Some (new_job new_id now)).
  { simpl in Hdo. destruct (jobs s !! new_id); [discriminate|].
    destruct (threads s !! new_id); [discriminate|]. injection Hdo as <-.
    unfold api_download. destruct (String.eqb_spec (strip is_space (str_or_empty (p_url data))) "");
      [contradiction|]. simpl. apply lookup_insert_eq. }
  destruct (run_keeps actions s1 s2 new_id _ (reachable_invariant _ Hr1) Hrun Hj)
    as (j' & Hj' & Hid & _).
  unfold api_status. rewrite Hj'. eexists. split; [reflexivity|]. exact Hid.
Qed.

Lemma accepted_job_stays_visible_witness :
  exists view, fst (api_status "j" (jobs run_not_found)) = StatusOk view /\ view_id view = "j".
Proof.
  apply (accepted_job_stays_visible some_payload "j" (seconds 100) initial
           (snd (api_download some_payload "j" (seconds 100) initial)) run_not_found
           (thread_actions "j" [Progress finished_event] (Returned no_info) empty_disk)).
  - exists []. reflexivity.
  - vm_compute. discriminate.
  - vm_compute. reflexivity.
  - vm_compute. reflexivity.
Defined.

(** In every reachable store a job is ready exactly when it finished with
    a file recorded, a ready job has no error, and the file endpoint
    answers 409 exactly for the jobs that are not ready. *)
Theorem ready_means_resolved (s : System) (id : string) (j : Job) (method : Method) (fs : FS) :
  reachable s -> jobs s !! id = Some j ->
  (ready j = true <-> state j = finished /\ truthy (file j) = true)
  /\ (ready j = true -> error j = None)
  /\ (ready j = false <-> fst (api_file id method fs (jobs s)) = Conflict "file not ready").
Proof.
  intros Hr Hj. destruct (reachable_job s id j Hr Hj) as (t & _ & Hok).
  assert (H : pending j \/ settled j).
  { simpl in Hok. destruct (phase t); tauto. }
  unfold api_file. rewrite Hj. cbn zeta.
  destruct H as [(Hrd & Hf & He)|[(Hs & Hrd & (p & Hf & Hp) & He)|[(Hs & Hrd & Hf & He)
                                  |(Hs & Hrd & Hf & He)]]]; rewrite Hrd, Hf; simpl.
  - repeat split; try discriminate; try tauto; try (intros [_ H]; discriminate).
  - assert (Hne : negb (String.eqb p "") = true).
    { destruct (String.eqb_spec p ""); [contradiction|reflexivity]. }
    rewrite Hne. simpl. repeat split; try discriminate; try tauto.
    destruct (exists_ fs _); simpl; [destruct method|]; discriminate.
  - repeat split; try discriminate; try tauto; try (intros [_ H]; discriminate).
  - repeat split; try discriminate; try tauto; try (intros [_ H]; discriminate).
Qed.

Lemma ready_means_resolved_witness :
  (ready found_job = true <-> state found_job = finished /\ truthy (file found_job) = true)
  /\ (ready found_job = true -> error found_job = None)
  /\ (ready found_job = false
      <-> fst (api_file "j" GET (disk_with "x [a].mp4") (jobs run_found))
          = Conflict "file not ready").
Proof.
  apply (ready_means_resolved run_found "j" found_job GET (disk_with "x [a].mp4")).
  - exists found_actions. vm_compute. reflexivity.
  - vm_compute. reflexivity.
Defined.

(** ** What the resolver returns *)

Lemma insert_desc_In (e x : Entry) (l : list Entry) :
  In x (insert_desc e l) <-> x = e \/ In x l.
Proof.
  induction l as [|y l IH]; simpl.
  - split; [intros [H|[]]; auto|intros [H|[]]; auto].
  - destruct (st_mtime y <=? st_mtime e); simpl; [split; intros [H|H]; auto|].
    rewrite IH. split; [intros [H|[H|H]]; auto|intros [H|[H|H]]; auto].
Qed.

Lemma sorted_desc_In (x : Entry) (l : list Entry) : In x (sorted_desc l) <-> In x l.
Proof.
  induction l as [|y l IH]; simpl; [tauto|].
  rewrite insert_desc_In, IH. split; intros [H|H]; auto.
Qed.

Lemma insert_desc_descending (e : Entry) (l : list Entry) :
  descending l -> descending (insert_desc e l).
Proof.
  induction l as [|y l IH]; simpl; [intros _; split; [intros ? []|exact I]|].
  intros [Hy Hl]. destruct (st_mtime y <=? st_mtime e) eqn:E; simpl.
  - apply Z.leb_le in E. split; [|split; assumption].
    intros z [<-|Hz]; [exact E|]. specialize (Hy z Hz). lia.
  - apply Z.leb_gt in E. split; [|apply IH, Hl].
    intros z Hz. apply insert_desc_In in Hz. destruct Hz as [->|Hz]; [lia|apply Hy, Hz].
Qed.

Lemma sorted_desc_descending (l : list Entry) : descending (sorted_desc l).
Proof.
  induction l as [|y l IH]; simpl; [exact I|]. apply insert_desc_descending, IH.
Qed.

Lemma first_recent_is_newest (thr : Z) (l : list Entry) (q : Entry) (r : list Entry) :
  descending l ->
  List.filter (fun e => thr <=? st_mtime e) l = q :: r ->
  In q l /\ thr <= st_mtime q /\ forall y, In y l -> st_mtime y <= st_mtime q.
Proof.
  induction l as [|x l IH]; simpl; [discriminate|].
  intros [Hx Hl]. destruct (thr <=? st_mtime x) eqn:E.
  - intros [= -> _]. apply Z.leb_le in E. repeat split; [left; reflexivity|exact E|].
    intros y [<-|Hy]; [lia|apply Hx, Hy].
  - intros Hf. apply Z.leb_gt in E. destruct (IH Hl Hf) as (Hin & Hthr & Hmax).
    repeat split; [right; exact Hin|exact Hthr|].
    intros y [<-|Hy]; [lia|apply Hmax, Hy].
Qed.

Lemma newest_since_some (fs : FS) (start_ts : Z) (p : Path) :
  newest_since fs start_ts = Some p ->
  exists e, In e (listing fs) /\ p = child DOWNLOAD_DIR (entry_name e)
            /\ start_ts - seconds 5 <= st_mtime e
            /\ forall e', In e' (listing fs) -> st_mtime e' <= st_mtime e.
Proof.
  unfold newest_since.
  destruct (List.filter _ (sorted_desc (listing fs))) as [|q r] eqn:E; [discriminate|].
  intros [= <-].
  destruct (first_recent_is_newest _ _ _ _ (sorted_desc_descending (listing fs)) E)
    as (Hin & Hthr & Hmax).
  exists q. repeat split; [apply sorted_desc_In, Hin|exact Hthr|].
  intros e' He'. apply Hmax, sorted_desc_In, He'.
Qed.


(** A path the resolver returns is on disk, or it is the fallback's pick:
    the entry of the download directory modified last, and no earlier
    than five seconds before the job was created. *)
Theorem resolved_path_is_grounded (fs : FS) (info : Info) (job : Job)
    (selection audio_fmt merge : string) (p : Path) :
  resolve_final_file fs info job selection audio_fmt merge = Ret (Some p) ->
  exists_ fs p = true
  \/ exists e, In e (listing fs) /\ p = child DOWNLOAD_DIR (entry_name e)
               /\ start_ts job - seconds 5 <= st_mtime e
               /\ forall e', In e' (listing fs) -> st_mtime e' <= st_mtime e.
Proof.
  unfold resolve_final_file.
  destruct (find_final_file fs _) as [q|] eqn:Ef; [|discriminate]. simpl.
  destruct (from_option (exists_ fs) false q) eqn:Eq.
  - intros [= ->]. left. exact Eq.
  - destruct (hint_candidates _ _ _ _) as [hinted|]; [|discriminate]. simpl.
    destruct (List.find _ _) as [c|] eqn:Efind.
    + intros [= ->]. left. apply (List.find_some _ _ Efind).
    + intros [= H]. right. apply newest_since_some, H.
Qed.

Lemma resolved_path_is_grounded_witness :
  exists_ (stray_file (seconds 98)) (child DOWNLOAD_DIR "other.txt") = true
  \/ exists e, In e (listing (stray_file (seconds 98)))
               /\ child DOWNLOAD_DIR "other.txt" = child DOWNLOAD_DIR (entry_name e)
               /\ start_ts (new_job "j" (seconds 100)) - seconds 5 <= st_mtime e
               /\ forall e', In e' (listing (stray_file (seconds 98))) ->
                    st_mtime e' <= st_mtime e.
Proof.
  apply (resolved_path_is_grounded (stray_file (seconds 98)) no_info
           (new_job "j" (seconds 100)) "4" "m4a" "mp4").
  vm_compute. reflexivity.
Defined.



(** ** When the resolver raises *)

Lemma no_double_star_pattern (vid : string) :
  contains "*" vid = false -> infix "**" ("*[" +:+ vid +:+ "].*") = false.
Proof.
  intros Hw.
  change ("*[" +:+ vid +:+ "].*") with (String "*" (String "[" (vid +:+ "].*"))).
  cbn [infix startswith]. change (Ascii.eqb "*" "*") with true.
  change (Ascii.eqb "*" "[") with false. cbn [andb orb].
  induction vid as [|c vid IH]; [reflexivity|].
  change (String c vid +:+ "].*") with (String c (vid +:+ "].*")).
  cbn [contains] in Hw. apply orb_false_iff in Hw as [Hc Hv].
  cbn [infix startswith]. rewrite (IH Hv), Ascii.eqb_sym, Hc. reflexivity.
Qed.

Lemma glob_id_pattern_returns (fs : FS) (vid : string) :
  contains "*" vid = false -> contains "/" vid = false ->
  exists l, glob fs ("*[" +:+ vid +:+ "].*") = Ret l.
Proof.
  intros Hs Hl. unfold glob, name_parts.
  rewrite (split_none "/" ("*[" +:+ vid +:+ "].*")).
  - cbn [List.filter].
    change (String.eqb ("*[" +:+ vid +:+ "].*") "") with false.
    change (String.eqb ("*[" +:+ vid +:+ "].*") ".") with false.
    cbn [negb andb existsb]. rewrite (no_double_star_pattern vid Hs). cbn [andb orb].
    eexists. reflexivity.
  - rewrite !contains_app, Hl. reflexivity.
Qed.

Lemma find_final_file_returns (fs : FS) (vid : option string) :
  contains "*" (str_or_empty vid) = false -> contains "/" (str_or_empty vid) = false ->
  exists q, find_final_file fs vid = Ret q.
Proof.
  intros Hs Hl. unfold find_final_file. destruct (negb (truthy vid)); [eexists; reflexivity|].
  destruct (glob_id_pattern_returns fs _ Hs Hl) as [l ->]. simpl.
  destruct l; eexists; reflexivity.
Qed.

Lemma with_suffix_returns (p : Path) (ext : string) :
  path_name p <> "" -> ext <> "" -> contains "/" ext = false ->
  exists q, with_suffix p ("." +:+ ext) = Ret q.
Proof.
  intros Hn He Hs. unfold with_suffix.
  change ("." +:+ ext) with (String "." ext).
  cbn [contains startswith]. change (Ascii.eqb "." "/") with false.
  change (Ascii.eqb "." ".") with true. rewrite Hs. cbn [orb andb negb].
  replace (String.eqb (String "." ext) ".") with false.
  - cbn [orb andb negb]. change (String.eqb (String "." ext) "") with false. cbn [negb andb orb].
    destruct (String.eqb_spec (path_name p) ""); [contradiction|]. eexists. reflexivity.
  - symmetry. apply String.eqb_neq. intros [= H]. contradiction.
Qed.

Lemma with_suffix_dot (p : Path) : with_suffix p "." = Raise "Invalid suffix '.'".
Proof. reflexivity. Qed.

(** The resolver returns without raising when the video id holds no star
    and no slash, the hint (if any) names a file, and the extension it
    appends is not empty (audio only) and holds no slash; for a video
    request the info is taken to name an extension (the record [Info]
    does not tell a missing [ext] from one that is [None], which the
    source cannot strip). *)
Theorem resolver_returns_normally (fs : FS) (info : Info) (job : Job)
    (selection audio_fmt merge : string) :
  contains "*" (str_or_empty (py_or (video_id job) (info_id info))) = false ->
  contains "/" (str_or_empty (py_or (video_id job) (info_id info))) = false ->
  (truthy (selected_hint job info) = true ->
   path_name (py_Path (str_or_empty (selected_hint job info))) <> "") ->
  (if String.eqb selection "10" then audio_fmt <> "" /\ contains "/" audio_fmt = false
   else contains "/" merge = false /\ info_ext info <> None) ->
  exists r, resolve_final_file fs info job selection audio_fmt merge = Ret r.
Proof.
  intros Hs Hl Hhint Hext. unfold resolve_final_file.
  destruct (find_final_file_returns fs _ Hs Hl) as [q ->]. simpl.
  destruct (from_option (exists_ fs) false q); [eexists; reflexivity|].
  fold (selected_hint job info).
  assert (Hh : exists hinted, hint_candidates (selected_hint job info) selection audio_fmt merge
                              = Ret hinted).
  { unfold hint_candidates. destruct (truthy (selected_hint job info)) eqn:Et;
      [|eexists; reflexivity].
    specialize (Hhint eq_refl).
    destruct (String.eqb selection "10").
    - destruct Hext as [Hne Hsl].
      destruct (with_suffix_returns _ audio_fmt Hhint Hne Hsl) as [a ->]. eexists; reflexivity.
    - destruct (with_suffix_returns _ "mp4" Hhint ltac:(discriminate) eq_refl) as [a Ha].
      destruct (with_suffix_returns _ "mkv" Hhint ltac:(discriminate) eq_refl) as [b Hb].
      change ("." +:+ "mp4") with ".mp4" in Ha. change ("." +:+ "mkv") with ".mkv" in Hb.
      destruct (negb (String.eqb merge "") && negb (String.eqb merge "auto")) eqn:Em.
      + assert (Hne : merge <> "").
        { intros ->. discriminate. }
        destruct (with_suffix_returns _ merge Hhint Hne (proj1 Hext)) as [c ->]. simpl.
        rewrite Ha. simpl. rewrite Hb. eexists; reflexivity.
      + simpl. rewrite Ha. simpl. rewrite Hb. eexists; reflexivity. }
  destruct Hh as [hinted ->]. simpl.
  destruct (List.find _ _); eexists; reflexivity.
Qed.

Lemma resolver_returns_normally_witness :
  exists r,
    resolve_final_file three_files
      (mkInfo (Some "abc123") (Some "Title") (Some "webm")
         (Some "downloads/Title [abc123].webm"))
      (new_job "j" (seconds 100)) "4" "m4a" "mp4" = Ret r.
Proof.
  apply (resolver_returns_normally three_files
           (mkInfo (Some "abc123") (Some "Title") (Some "webm")
              (Some "downloads/Title [abc123].webm"))
           (new_job "j" (seconds 100)) "4" "m4a" "mp4").
  - reflexivity.
  - reflexivity.
  - intros _. vm_compute. discriminate.
  - split; [reflexivity|discriminate].
Defined.

(** An audio-only request whose [audioFmt] is the empty string fails the
    job whenever a filename hint is known and the scan by identifier
    finds nothing on disk: the resolver raises on the suffix ["."], before
    it looks at any candidate, and the runner records the error state. *)
Theorem empty_audio_format_fails_the_job (fs : FS) (pl : Payload) (info : Info) (job : Job)
    (q : option Path) :
  p_resolution pl = Some "10" -> p_audioFmt pl = Some "" ->
  truthy (selected_hint job info) = true ->
  find_final_file fs (py_or (video_id job) (info_id info)) = Ret q ->
  from_option (exists_ fs) false q = false ->
  resolve_final_file fs info job "10" "" (merge_of pl) = Raise "Invalid suffix '.'"
  /\ state (resolved fs pl info job) = failed
  /\ error (resolved fs pl info job) = Some "Invalid suffix '.'"
  /\ ready (resolved fs pl info job) = ready job.
Proof.
  intros Hr Ha Hh Hf Hq.
  assert (E : resolve_final_file fs info job "10" "" (merge_of pl) = Raise "Invalid suffix '.'").
  { unfold resolve_final_file. rewrite Hf. simpl. rewrite Hq.
    fold (selected_hint job info). unfold hint_candidates. rewrite Hh. reflexivity. }
  split; [exact E|]. unfold resolved, selection_of, audio_fmt_of. rewrite Hr, Ha. simpl.
  rewrite E. repeat split; reflexivity.
Qed.

Lemma empty_audio_format_fails_the_job_witness :
  resolve_final_file empty_disk (mkInfo None None None (Some "downloads/x.webm"))
    (new_job "j" (seconds 100)) "10" ""
    (merge_of (mkPayload (Some "https://youtu.be/abc123") (Some "10") None (Some "")))
  = Raise "Invalid suffix '.'"
  /\ state (resolved empty_disk
              (mkPayload (Some "https://youtu.be/abc123") (Some "10") None (Some ""))
              (mkInfo None None None (Some "downloads/x.webm"))
              (new_job "j" (seconds 100))) = failed
  /\ error (resolved empty_disk
              (mkPayload (Some "https://youtu.be/abc123") (Some "10") None (Some ""))
              (mkInfo None None None (Some "downloads/x.webm"))
              (new_job "j" (seconds 100))) = Some "Invalid suffix '.'"
  /\ ready (resolved empty_disk
              (mkPayload (Some "https://youtu.be/abc123") (Some "10") None (Some ""))
              (mkInfo None None None (Some "downloads/x.webm"))
              (new_job "j" (seconds 100))) = ready (new_job "j" (seconds 100)).
Proof.
  apply (empty_audio_format_fails_the_job empty_disk
           (mkPayload (Some "https://youtu.be/abc123") (Some "10") None (Some ""))
           (mkInfo None None None (Some "downloads/x.webm"))
           (new_job "j" (seconds 100)) None); reflexivity.
Defined.

(** ** The fetch request *)


Lemma ua_presets_nonempty (choice ua : string) :
  UA_PRESETS !! choice = Some ua -> ua <> "".
Proof.
  intros H. apply elem_of_list_to_map_2 in H.
  repeat (apply elem_of_cons in H as [H|H]; [injection H as -> ->; discriminate |]).
  apply elem_of_nil in H. contradiction.
Qed.

Lemma is_youtube_watch_url (vid : string) : is_youtube (watch_url vid) = true.
Proof.
  unfold is_youtube.
  replace (infix "youtube.com" (watch_url vid)) with true by reflexivity.
  apply orb_true_r.
Qed.

Section FetchRequestFacts.

Variable bracketed_netloc_ok : string -> bool.
Variable nfkc_netloc_ok : string -> bool.
Variable FFMPEG_PATH : option string.
Variable COOKIES_BROWSER : option string.

#[local] Abbreviation options :=
  (ydl_options bracketed_netloc_ok nfkc_netloc_ok FFMPEG_PATH COOKIES_BROWSER).
#[local] Abbreviation url_of := (request_url bracketed_netloc_ok nfkc_netloc_ok).


(** The request always carries a User-Agent that is not empty; a Referer
    is sent exactly for YouTube URLs, and no other header is set. *)
Theorem request_headers (payload : Payload) (rest : PayloadRest) :
  (exists ua, http_headers (options payload rest) !! "User-Agent" = Some ua /\ ua <> "")
  /\ http_headers (options payload rest) !! "Referer"
     = (if is_youtube (url_of payload) then Some "https://www.youtube.com" else None)
  /\ forall name, name <> "User-Agent" -> name <> "Referer" ->
       http_headers (options payload rest) !! name = None.
Proof.
  unfold ydl_options. cbn [http_headers].
  set (ua := if _ && _ then _ else _).
  assert (Hua : ua <> "").
  { subst ua. destruct (String.eqb _ "custom"); simpl.
    - destruct (String.eqb_spec (strip is_space (str_or_empty (p_uaCustom rest))) "") as [E|E];
        simpl; [|exact E].
      destruct (UA_PRESETS !! _) as [u|] eqn:Eu; [apply (ua_presets_nonempty _ _ Eu)|].
      vm_compute. discriminate.
    - destruct (UA_PRESETS !! _) as [u|] eqn:Eu; [apply (ua_presets_nonempty _ _ Eu)|].
      vm_compute. discriminate. }
  destruct (is_youtube _); (split; [|split]).
  - exists ua. split; [|exact Hua]. rewrite lookup_insert_ne by discriminate.
    apply lookup_insert_eq.
  - apply lookup_insert_eq.
  - intros name H1 H2. rewrite !lookup_insert_ne by congruence. apply lookup_empty.
  - exists ua. split; [|exact Hua]. apply lookup_insert_eq.
  - rewrite lookup_insert_ne by discriminate. apply lookup_empty.
  - intros name H1 H2. rewrite !lookup_insert_ne by congruence. apply lookup_empty.
Qed.


(** Every URL the normalizer rewrites is then handled as a YouTube URL:
    it gets the Referer, the player clients, one fragment at a time and
    the geographic bypass. *)
Theorem rewritten_url_gets_youtube_options (payload : Payload) (rest : PayloadRest) :
  url_of payload <> strip is_space (str_or_empty (p_url payload)) ->
  is_youtube (url_of payload) = true
  /\ http_headers (options payload rest) !! "Referer" = Some "https://www.youtube.com"
  /\ player_client (options payload rest) = Some ["android"; "web"]
  /\ concurrent_fragment_downloads (options payload rest) = Some 1
  /\ geo_bypass (options payload rest) = Some true.
Proof.
  intros Hne.
  assert (Hy : is_youtube (url_of payload) = true).
  { unfold request_url in *.
    destruct (normalize_cases bracketed_netloc_ok nfkc_netloc_ok
                (strip is_space (str_or_empty (p_url payload)))) as [E|[vid E]];
      [contradiction|]. rewrite E. apply is_youtube_watch_url. }
  split; [exact Hy|]. unfold ydl_options.
  cbn [http_headers player_client concurrent_fragment_downloads geo_bypass].
  rewrite Hy. repeat split; try apply lookup_insert_eq.
Qed.

End FetchRequestFacts.

Lemma rewritten_url_gets_youtube_options_witness :
  is_youtube (request_url (fun _ => true) (fun _ => true) some_payload) = true
  /\ http_headers (ydl_options (fun _ => true) (fun _ => true) None None some_payload no_rest)
     !! "Referer" = Some "https://www.youtube.com"
  /\ player_client (ydl_options (fun _ => true) (fun _ => true) None None some_payload no_rest)
     = Some ["android"; "web"]
  /\ concurrent_fragment_downloads
       (ydl_options (fun _ => true) (fun _ => true) None None some_payload no_rest) = Some 1
  /\ geo_bypass (ydl_options (fun _ => true) (fun _ => true) None None some_payload no_rest)
     = Some true.
Proof.
  apply (rewritten_url_gets_youtube_options (fun _ => true) (fun _ => true) None None
           some_payload no_rest).
  vm_compute. discriminate.
Defined.

(** The merge extension the runner records is the merge format it asked
    the fetcher for, and nothing ever reads it: the resolver and both
    endpoints answer the same whatever it holds. *)
Theorem merge_ext_mirrors_request_and_is_unread (b n : string -> bool) (ff cb : option string)
    (payload : Payload) (rest : PayloadRest) (j : Job) (v : string) :
  merge_ext (note_merge_ext payload j)
  = default "" (merge_output_format (ydl_options b n ff cb payload rest))
  /\ (forall fs info selection audio_fmt merge,
        resolve_final_file fs info (set_merge_ext v j) selection audio_fmt merge
        = resolve_final_file fs info j selection audio_fmt merge)
  /\ (forall id J, fst (api_status id (<[id := set_merge_ext v j]> J))
                   = fst (api_status id (<[id := j]> J)))
  /\ (forall id method fs J, fst (api_file id method fs (<[id := set_merge_ext v j]> J))
                             = fst (api_file id method fs (<[id := j]> J))).
Proof.
  repeat split.
  - unfold note_merge_ext, ydl_options. cbn [merge_ext set_merge_ext merge_output_format].
    destruct (_ && _ && _); reflexivity.
  - intros id J. unfold api_status. rewrite !lookup_insert_eq. reflexivity.
  - intros id method fs J. unfold api_file. rewrite !lookup_insert_eq.
    destruct j; simpl.
    destruct (_ || _); [reflexivity|]. destruct (negb _); [reflexivity|].
    destruct method; reflexivity.
Qed.

(** ** The output template *)


















(** ** Share links *)

Lemma id_char_facts (c : ascii) :
  is_id_char c = true ->
  is_plain c = true /\ Ascii.eqb c "/" = false /\ Ascii.eqb c "?" = false
  /\ Ascii.eqb c ";" = false /\ Ascii.eqb c "=" = false.
Proof.
  destruct c as [[] [] [] [] [] [] [] []]; vm_compute; intros H;
    try discriminate H; repeat split; reflexivity.
Qed.

Lemma all_chars_impl (p q : ascii -> bool) (s : string) :
  (forall c, p c = true -> q c = true) -> all_chars p s = true -> all_chars q s = true.
Proof.
  intros Hpq. induction s as [|c s IH]; [reflexivity|]. cbn [all_chars].
  intros H. apply andb_true_iff in H as [Hc Hs]. rewrite (Hpq c Hc), (IH Hs). reflexivity.
Qed.

Lemma all_chars_free (p : ascii -> bool) (c : ascii) (s : string) :
  (forall x, p x = true -> Ascii.eqb x c = false) ->
  all_chars p s = true -> contains c s = false.
Proof.
  intros Hp. induction s as [|x s IH]; [reflexivity|]. cbn [all_chars contains].
  intros H. apply andb_true_iff in H as [Hx Hs]. rewrite (Hp x Hx), (IH Hs). reflexivity.
Qed.

Lemma id_chars_plain (vid : string) :
  all_chars is_id_char vid = true -> all_chars is_plain vid = true.
Proof. apply all_chars_impl. intros c Hc. apply (id_char_facts c Hc). Qed.

Lemma id_chars_free (c : ascii) (vid : string) :
  In c ["/"; "?"; ";"; "="]%char ->
  all_chars is_id_char vid = true -> contains c vid = false.
Proof.
  intros Hin. apply all_chars_free. intros x Hx.
  destruct (id_char_facts x Hx) as (_ & H1 & H2 & H3 & H4).
  destruct Hin as [<-|[<-|[<-|[<-|[]]]]]; assumption.
Qed.

Lemma append_nil_r (s : string) : s +:+ "" = s.
Proof.
  induction s as [|c s IH]; [reflexivity|].
  change (String c s +:+ "") with (String c (s +:+ "")). rewrite IH. reflexivity.
Qed.

Lemma partition_app_hit (c : ascii) (a b : string) :
  contains c a = false -> partition c (a +:+ String c b) = Some (a, b).
Proof.
  induction a as [|x a IH].
  - intros _. change ("" +:+ String c b) with (String c b). cbn [partition].
    rewrite Ascii.eqb_refl. reflexivity.
  - change (String x a +:+ String c b) with (String x (a +:+ String c b)).
    cbn [contains partition]. intros H. apply orb_false_iff in H as [Hx Ha].
    rewrite Hx, (IH Ha). reflexivity.
Qed.

Lemma split_sep_app (c : ascii) (a b : string) :
  split c (a +:+ String c b) = split c a ++ split c b.
Proof.
  assert (Hne : forall s, split c s <> []).
  { induction s as [|x s IH]; simpl; [discriminate|].
    destruct (split c s); [discriminate|]. destruct (Ascii.eqb x c); discriminate. }
  induction a as [|x a IH].
  - change ("" +:+ String c b) with (String c b). cbn [split app].
    rewrite Ascii.eqb_refl. specialize (Hne b). destruct (split c b); [contradiction|reflexivity].
  - change (String x a +:+ String c b) with (String x (a +:+ String c b)).
    cbn [split]. rewrite IH. specialize (Hne a).
    destruct (split c a) as [|h t]; [contradiction|]. cbn [app].
    destruct (Ascii.eqb x c); reflexivity.
Qed.

Lemma lstrip_none (p : ascii -> bool) (s : string) :
  all_chars (fun c => negb (p c)) s = true -> lstrip p s = s.
Proof.
  destruct s as [|c s]; [reflexivity|]. cbn [all_chars lstrip].
  intros H. apply andb_true_iff in H as [Hc _]. apply negb_true_iff in Hc.
  rewrite Hc. reflexivity.
Qed.

Lemma rstrip_none (p : ascii -> bool) (s : string) :
  all_chars (fun c => negb (p c)) s = true -> rstrip p s = s.
Proof.
  induction s as [|c s IH]; [reflexivity|]. cbn [all_chars rstrip].
  intros H. apply andb_true_iff in H as [Hc Hs]. apply negb_true_iff in Hc.
  rewrite (IH Hs), Hc. destruct s; reflexivity.
Qed.

Lemma rstrip_app (p : ascii -> bool) (a b : string) :
  rstrip p b = b -> b <> "" -> rstrip p (a +:+ b) = a +:+ b.
Proof.
  intros Hb Hne. induction a as [|c a IH]; [exact Hb|].
  change (String c a +:+ b) with (String c (a +:+ b)). cbn [rstrip]. rewrite IH.
  destruct (a +:+ b) eqn:E; [|reflexivity].
  destruct a; [|discriminate E]. contradiction.
Qed.

Lemma id_chars_no_slash (vid : string) :
  all_chars is_id_char vid = true -> all_chars (fun c => negb (is_slash c)) vid = true.
Proof.
  apply all_chars_impl. intros c Hc. unfold is_slash.
  destruct (id_char_facts c Hc) as (_ & -> & _). reflexivity.
Qed.

(** [parse_qs] keeps the first value of a key first. *)
Lemma fold_keeps_first (l : list (string * string)) (m : gmap string (list string))
    (k v : string) (vs : list string) :
  m !! k = Some (v :: vs) ->
  exists vs',
    fold_left
      (fun parsed_result nv =>
         match parsed_result !! fst nv with
         | Some values => <[fst nv := values ++ [snd nv]]> parsed_result
         | None => <[fst nv := [snd nv]]> parsed_result
         end) l m !! k = Some (v :: vs').
Proof.
  revert m vs. induction l as [|[n x] l IH]; intros m vs Hm; cbn [fold_left fst snd].
  - exists vs. exact Hm.
  - destruct (decide (n = k)) as [->|Hne].
    + rewrite Hm. apply (IH _ (vs ++ [x])). rewrite lookup_insert_eq. reflexivity.
    + destruct (m !! n); apply (IH _ vs); rewrite lookup_insert_ne by exact Hne; exact Hm.
Qed.

Lemma parse_qs_first_v (vid q : string) :
  vid <> "" -> all_chars is_plain vid = true ->
  exists vs, parse_qs ("v=" +:+ vid +:+ String "&" q) !! "v" = Some (vid :: vs).
Proof.
  intros Hne Hp. unfold parse_qs, parse_qsl.
  assert (E1 : String.eqb ("v=" +:+ vid +:+ String "&" q) "" = false) by reflexivity.
  rewrite E1.
  replace ("v=" +:+ vid +:+ String "&" q) with (("v=" +:+ vid) +:+ String "&" q)
    by apply append_assoc.
  rewrite split_sep_app, split_none
    by (rewrite contains_app, (plain_contains "&" vid eq_refl Hp); reflexivity).
  cbn [app flat_map].
  assert (E2 : partition "=" ("v=" +:+ vid) = Some ("v", vid)) by reflexivity.
  rewrite E2. destruct (String.eqb_spec vid ""); [contradiction|]. cbn [negb app].
  rewrite (replace_char_id "+" " " vid (plain_contains "+" vid eq_refl Hp)).
  unfold unquote at 2. rewrite (plain_contains "%" vid eq_refl Hp).
  change (unquote (replace_char "+" " " "v")) with "v".
  cbn [fold_left fst snd]. rewrite lookup_empty.
  apply (fold_keeps_first _ _ "v" vid []). apply lookup_insert_eq.
Qed.

Section ShareLinks.

Variable bracketed_netloc_ok : string -> bool.
Variable nfkc_netloc_ok : string -> bool.

#[local] Abbreviation normalize := (normalize_youtube_url bracketed_netloc_ok nfkc_netloc_ok).

Lemma urlsplit_https (host rest path query : string) :
  break_at is_netloc_end (host +:+ rest) = (host, rest) ->
  contains "[" host = false -> contains "]" host = false ->
  all_chars is_ascii host = true ->
  all_chars (fun c => negb (is_tab_cr_lf c)) (host +:+ rest) = true ->
  contains "#" rest = false ->
  split_once "?" rest = (path, query) ->
  urlsplit bracketed_netloc_ok nfkc_netloc_ok ("https://" +:+ host +:+ rest)
  = Some (mkParseResult "https" host path "" query "").
Proof.
  intros H7 Ho Hc Ha Ht Hf Hq. unfold urlsplit.
  assert (E1 : lstrip is_c0_or_space ("https://" +:+ host +:+ rest)
               = "https://" +:+ host +:+ rest) by reflexivity.
  assert (E2 : remove_char is_tab_cr_lf ("https://" +:+ host +:+ rest)
               = "https://" +:+ host +:+ rest).
  { apply remove_char_id. rewrite all_chars_app, Ht. reflexivity. }
  rewrite E1, E2.
  assert (E3 : partition ":" ("https://" +:+ host +:+ rest)
               = Some ("https", "//" +:+ host +:+ rest)) by reflexivity.
  rewrite E3.
  assert (E4 : is_ascii "h" && is_alpha "h" && all_chars is_scheme_char "https" = true)
    by reflexivity.
  rewrite E4.
  assert (E5 : startswith "//" ("//" +:+ host +:+ rest) = true) by reflexivity.
  assert (E6 : substring 2 (String.length ("//" +:+ host +:+ rest) - 2)
                 ("//" +:+ host +:+ rest) = host +:+ rest).
  { change (substring 0 (String.length (host +:+ rest) - 0) (host +:+ rest) = host +:+ rest).
    rewrite Nat.sub_0_r. apply substring_all. }
  assert (E8 : split_once "#" rest = (rest, "")).
  { unfold split_once. rewrite (partition_none "#" rest Hf). reflexivity. }
  cbv zeta. cbv beta iota. rewrite E5, E6, H7. cbv beta iota.
  rewrite Ho, Hc. cbn [xorb andb]. rewrite E8. cbv beta iota. rewrite Hq. cbv beta iota.
  rewrite Ha, orb_true_r. reflexivity.
Qed.

Lemma urlparse_https (host rest path query : string) :
  break_at is_netloc_end (host +:+ rest) = (host, rest) ->
  contains "[" host = false -> contains "]" host = false ->
  all_chars is_ascii host = true ->
  all_chars (fun c => negb (is_tab_cr_lf c)) (host +:+ rest) = true ->
  contains "#" rest = false ->
  split_once "?" rest = (path, query) ->
  contains ";" path = false ->
  urlparse bracketed_netloc_ok nfkc_netloc_ok ("https://" +:+ host +:+ rest)
  = Some (mkParseResult "https" host path "" query "").
Proof.
  intros H7 Ho Hc Ha Ht Hf Hq Hs. unfold urlparse.
  rewrite (urlsplit_https host rest path query H7 Ho Hc Ha Ht Hf Hq). simpl.
  rewrite Hs. reflexivity.
Qed.

Lemma split_once_tail (p : string) (q : option string) :
  contains "?" p = false ->
  split_once "?" (p +:+ link_tail q) = (p, default "" q).
Proof.
  intros Hp. unfold split_once. destruct q as [q|]; cbn [link_tail default].
  - rewrite (partition_app_hit "?" p q Hp). reflexivity.
  - rewrite append_nil_r, (partition_none "?" p Hp). reflexivity.
Qed.

Lemma id_tail_checks (pre vid : string) (q : option string) :
  all_chars (fun c => negb (is_tab_cr_lf c)) pre = true ->
  all_chars is_id_char vid = true ->
  all_chars (fun c => negb (is_tab_cr_lf c)) (default "" q) = true ->
  all_chars (fun c => negb (is_tab_cr_lf c)) (pre +:+ vid +:+ link_tail q) = true.
Proof.
  intros Hpre Hv Hq. rewrite !all_chars_app, Hpre.
  rewrite (plain_no_tab_cr_lf vid (id_chars_plain vid Hv)).
  destruct q as [q|]; [|reflexivity].
  change (default "" (Some q)) with q in Hq. cbn [link_tail all_chars]. rewrite Hq. reflexivity.
Qed.

Lemma id_tail_no_hash (pre vid : string) (q : option string) :
  contains "#" pre = false -> all_chars is_id_char vid = true ->
  contains "#" (default "" q) = false ->
  contains "#" (pre +:+ vid +:+ link_tail q) = false.
Proof.
  intros Hpre Hv Hq. rewrite !contains_app, Hpre.
  rewrite (plain_contains "#" vid eq_refl (id_chars_plain vid Hv)).
  destruct q as [q|]; [|reflexivity].
  change (default "" (Some q)) with q in Hq. cbn [link_tail contains]. rewrite Hq. reflexivity.
Qed.

(** A short link and a shorts link whose identifier is made of letters,
    digits, [_] and [-] become the watch URL of that identifier, with or
    without a query behind them; and of a watch URL only the [v]
    parameter is kept, whatever parameters follow it. *)
Theorem share_links_become_watch_urls (vid : string) (q : option string) :
  vid <> "" -> all_chars is_id_char vid = true ->
  all_chars (fun c => negb (is_tab_cr_lf c)) (default "" q) = true ->
  contains "#" (default "" q) = false ->
  normalize ("https://youtu.be/" +:+ vid +:+ link_tail q) = watch_url vid
  /\ normalize ("https://www.youtube.com/shorts/" +:+ vid +:+ link_tail q) = watch_url vid
  /\ normalize ("https://www.youtube.com/watch?v=" +:+ vid +:+ String "&" (default "" q))
     = watch_url vid.
Proof.
  intros Hne Hv Hq Hh.
  pose proof (id_chars_plain vid Hv) as Hp.
  assert (Hstrip : strip is_slash vid = vid).
  { unfold strip. rewrite (lstrip_none _ _ (id_chars_no_slash vid Hv)).
    apply (rstrip_none _ _ (id_chars_no_slash vid Hv)). }
  split; [|split].
  - unfold normalize_youtube_url.
    change ("https://youtu.be/" +:+ vid +:+ link_tail q)
      with ("https://" +:+ "youtu.be" +:+ "/" +:+ vid +:+ link_tail q).
    rewrite (urlparse_https "youtu.be" ("/" +:+ vid +:+ link_tail q) ("/" +:+ vid) (default "" q));
      try reflexivity.
    + cbn [netloc path]. change (infix "youtu.be" (lower "youtu.be")) with true. cbv iota.
      change (strip is_slash ("/" +:+ vid)) with (strip is_slash vid).
      rewrite Hstrip, (split_none "/" vid (id_chars_free "/" vid ltac:(simpl; tauto) Hv)).
      cbn [hd]. destruct (String.eqb_spec vid ""); [contradiction|]. reflexivity.
    + apply (id_tail_checks "youtu.be/" vid q eq_refl Hv Hq).
    + apply (id_tail_no_hash "/" vid q eq_refl Hv Hh).
    + replace ("/" +:+ vid +:+ link_tail q) with (("/" +:+ vid) +:+ link_tail q)
        by apply append_assoc.
      apply split_once_tail. apply (id_chars_free "?" vid ltac:(simpl; tauto) Hv).
    + apply (id_chars_free ";" vid ltac:(simpl; tauto) Hv).
  - unfold normalize_youtube_url.
    change ("https://www.youtube.com/shorts/" +:+ vid +:+ link_tail q)
      with ("https://" +:+ "www.youtube.com" +:+ "/shorts/" +:+ vid +:+ link_tail q).
    rewrite (urlparse_https "www.youtube.com" ("/shorts/" +:+ vid +:+ link_tail q)
               ("/shorts/" +:+ vid) (default "" q)); try reflexivity.
    + cbn [netloc path].
      change (infix "youtu.be" (lower "www.youtube.com")) with false.
      change (infix "youtube.com" (lower "www.youtube.com")) with true. cbv iota.
      change (negb (String.eqb "" "")) with false. cbv iota.
      change (startswith "/shorts/" ("/shorts/" +:+ vid)) with true. cbv iota.
      assert (E : strip is_slash ("/shorts/" +:+ vid) = "shorts/" +:+ vid).
      { unfold strip. change (lstrip is_slash ("/shorts/" +:+ vid)) with ("shorts/" +:+ vid).
        apply rstrip_app; [|exact Hne]. apply (rstrip_none _ _ (id_chars_no_slash vid Hv)). }
      rewrite E. change ("shorts/" +:+ vid) with ("shorts" +:+ String "/" vid).
      rewrite split_sep_app, (split_none "/" vid (id_chars_free "/" vid ltac:(simpl; tauto) Hv)).
      change (split "/" "shorts") with ["shorts"]. cbn [app nth].
      destruct (String.eqb_spec vid ""); [contradiction|]. reflexivity.
    + apply (id_tail_checks "www.youtube.com/shorts/" vid q eq_refl Hv Hq).
    + apply (id_tail_no_hash "/shorts/" vid q eq_refl Hv Hh).
    + replace ("/shorts/" +:+ vid +:+ link_tail q) with (("/shorts/" +:+ vid) +:+ link_tail q)
        by apply append_assoc.
      apply split_once_tail. rewrite contains_app.
      rewrite (id_chars_free "?" vid ltac:(simpl; tauto) Hv). reflexivity.
    + rewrite contains_app, (id_chars_free ";" vid ltac:(simpl; tauto) Hv). reflexivity.
  - unfold normalize_youtube_url.
    change ("https://www.youtube.com/watch?v=" +:+ vid +:+ String "&" (default "" q))
      with ("https://" +:+ "www.youtube.com" +:+ "/watch?v=" +:+ vid
            +:+ String "&" (default "" q)).
    rewrite (urlparse_https "www.youtube.com" ("/watch?v=" +:+ vid +:+ String "&" (default "" q))
               "/watch" ("v=" +:+ vid +:+ String "&" (default "" q))); try reflexivity.
    + cbn [netloc path query].
      change (infix "youtu.be" (lower "www.youtube.com")) with false.
      change (infix "youtube.com" (lower "www.youtube.com")) with true. cbv iota.
      change (negb (String.eqb "" "")) with false. cbv iota.
      change (startswith "/shorts/" "/watch") with false.
      change (startswith "/watch" "/watch") with true. cbv iota.
      change (negb (String.eqb "" "")) with false. cbv iota.
      destruct (parse_qs_first_v vid (default "" q) Hne Hp) as [vs ->]. reflexivity.
    + rewrite !all_chars_app, (plain_no_tab_cr_lf vid Hp). cbn [all_chars].
      rewrite Hq. reflexivity.
    + rewrite !contains_app, (plain_contains "#" vid eq_refl Hp). cbn [contains].
      rewrite Hh. reflexivity.
Qed.

End ShareLinks.

Lemma share_links_become_watch_urls_witness :
  normalize_youtube_url (fun _ => true) (fun _ => true)
    ("https://youtu.be/" +:+ "dQw4w9WgXcQ" +:+ link_tail (Some "si=abc"))
  = watch_url "dQw4w9WgXcQ"
  /\ normalize_youtube_url (fun _ => true) (fun _ => true)
       ("https://www.youtube.com/shorts/" +:+ "dQw4w9WgXcQ" +:+ link_tail (Some "si=abc"))
     = watch_url "dQw4w9WgXcQ"
  /\ normalize_youtube_url (fun _ => true) (fun _ => true)
       ("https://www.youtube.com/watch?v=" +:+ "dQw4w9WgXcQ"
        +:+ String "&" (default "" (Some "si=abc")))
     = watch_url "dQw4w9WgXcQ".
Proof.
  apply (share_links_become_watch_urls (fun _ => true) (fun _ => true)
           "dQw4w9WgXcQ" (Some "si=abc")).
  - discriminate.
  - reflexivity.
  - reflexivity.
  - reflexivity.
Defined.

(** ** The percentage the hook stores *)



(** ** A file named after the title, and two jobs side by side *)





Lemma with_job_other (s : System) (a b : string) (pa pb : Payload) (pha phb : Phase)
    (ja jb : Job) :
  a <> b ->
  threads s !! b = Some (mkThread pb phb) -> jobs s !! b = Some jb ->
  with_job (with_job s a pa pha ja) b pb phb jb = with_job s a pa pha ja.
Proof.
  intros Hne Ht Hj. apply with_job_self; unfold with_job; cbn [threads jobs];
    rewrite lookup_insert_ne by exact Hne; assumption.
Qed.

Lemma run_two (s : System) (a b : string) (pa pb : Payload) (ja jb : Job)
    (ca cb : list HookCall) (ra rb : FetchResult) (fa fb : FS) :
  a <> b ->
  threads s !! a = Some (mkThread pa Spawned) -> jobs s !! a = Some ja ->
  threads s !! b = Some (mkThread pb Spawned) -> jobs s !! b = Some jb ->
  run_download a ca ra fa s ≫= run_download b cb rb fb
  = Some (mkSystem
            (<[b := outcome_of pb cb rb fb jb]> (<[a := outcome_of pa ca ra fa ja]> (jobs s)))
            (<[b := mkThread pb Done]> (<[a := mkThread pa Done]> (threads s)))).
Proof.
  intros Hne Hta Hja Htb Hjb.
  rewrite <- (with_job_self s a pa Spawned ja Hta Hja) at 1.
  rewrite run_download_with_job. cbn [mbind option_bind].
  rewrite <- (with_job_other s a b pa pb Done Spawned _ jb Hne Htb Hjb).
  rewrite run_download_with_job. reflexivity.
Qed.

(** The runs of two jobs do not interfere: run one after the other in
    either order, they leave the same store, in which each job has the
    record its own run gives it. *)
Theorem runs_of_two_jobs_commute (s : System) (a b : string) (pa pb : Payload) (ja jb : Job)
    (ca cb : list HookCall) (ra rb : FetchResult) (fa fb : FS) :
  a <> b ->
  threads s !! a = Some (mkThread pa Spawned) -> jobs s !! a = Some ja ->
  threads s !! b = Some (mkThread pb Spawned) -> jobs s !! b = Some jb ->
  run_download a ca ra fa s ≫= run_download b cb rb fb
  = run_download b cb rb fb s ≫= run_download a ca ra fa
  /\ exists s',
       run_download a ca ra fa s ≫= run_download b cb rb fb = Some s'
       /\ jobs s' !! a = Some (outcome_of pa ca ra fa ja)
       /\ jobs s' !! b = Some (outcome_of pb cb rb fb jb)
       /\ forall id, id <> a -> id <> b -> jobs s' !! id = jobs s !! id.
Proof.
  intros Hne Hta Hja Htb Hjb.
  rewrite (run_two s a b pa pb ja jb ca cb ra rb fa fb Hne Hta Hja Htb Hjb).
  rewrite (run_two s b a pb pa jb ja cb ca rb ra fb fa (not_eq_sym Hne) Htb Hjb Hta Hja).
  split.
  - f_equal. f_equal; apply insert_insert_ne; first [exact Hne | exact (not_eq_sym Hne)].
  - eexists. split; [reflexivity|]. cbn [jobs]. split; [|split].
    + rewrite lookup_insert_ne by (apply not_eq_sym; exact Hne). apply lookup_insert_eq.
    + apply lookup_insert_eq.
    + intros id H1 H2. rewrite !lookup_insert_ne by congruence. reflexivity.
Qed.

Lemma runs_of_two_jobs_commute_witness :
  run_download "a" [Progress finished_event] (Returned no_info) empty_disk two_jobs
    ≫= run_download "b" [] (Raised "HTTP Error 403") empty_disk
  = run_download "b" [] (Raised "HTTP Error 403") empty_disk two_jobs
    ≫= run_download "a" [Progress finished_event] (Returned no_info) empty_disk
  /\ exists s',
       run_download "a" [Progress finished_event] (Returned no_info) empty_disk two_jobs
         ≫= run_download "b" [] (Raised "HTTP Error 403") empty_disk = Some s'
       /\ jobs s' !! "a"
          = Some (outcome_of some_payload [Progress finished_event] (Returned no_info)
                    empty_disk (new_job "a" (seconds 100)))
       /\ jobs s' !! "b"
          = Some (outcome_of some_payload [] (Raised "HTTP Error 403") empty_disk
                    (new_job "b" (seconds 101)))
       /\ forall id, id <> "a" -> id <> "b" -> jobs s' !! id = jobs two_jobs !! id.
Proof.
  apply (runs_of_two_jobs_commute two_jobs "a" "b" some_payload some_payload
           (new_job "a" (seconds 100)) (new_job "b" (seconds 101))
           [Progress finished_event] [] (Returned no_info) (Raised "HTTP Error 403")
           empty_disk empty_disk).
  - discriminate.
  - vm_compute. reflexivity.
  - vm_compute. reflexivity.
  - vm_compute. reflexivity.
  - vm_compute. reflexivity.
Defined.
